(** * HybridCutMix: a shallow embedding of the training loops

    The development follows [src/utils/trainer.py] (the four epoch
    functions [train], [train_CutMix], [train_HybridPartSwapping],
    [train_HybridCutMix] and the evaluation function [test]) and the driver
    script [src/train.py].

    Modelling conventions.
    - Tensors are nested lists of rationals: floating point rounding, inf and
      nan are outside the model, every scalar is an exact rational.
    - The network, the loss criterion, the autograd engine, the optimizer and
      the scheduler are collaborators of the loops; they are the fields of
      the classes [Backend] and [Engine].
    - The mutable objects handed to the loops ([model], [optimizer],
      [scheduler]) live in one record [World], threaded through the code; a
      ghost [trace] logs every call made on a collaborator.
    - A Python exception is a [Raise]; the loops never catch one.
    - Random draws ([np.random.rand], [torch.randint], [torch.randperm],
      [rand_bbox]) are read from an oracle, one record [Draws] per batch. *)

From Stdlib Require Import QArith ZArith Lia Lqa Ascii String.
From stdpp Require Import base list gmap strings.

(** ** Exceptions and results *)

Inductive exn :=
| ZeroDivisionError
| IndexError
| KeyError (k : string)
| RuntimeError.

Inductive res (A : Type) :=
| Ok (a : A)
| Raise (e : exn).
Arguments Ok {A} a.
Arguments Raise {A} e.

#[global] Instance res_ret : MRet res := @Ok.
#[global] Instance res_bind : MBind res :=
  fun A B f m => match m with Ok a => f a | Raise e => Raise e end.

(** [l[i]] on a Python list: a negative index counts from the end, an index
    out of range raises. *)
Definition py_index {A} (l : list A) (i : Z) : res A :=
  let n := Z.of_nat (length l) in
  let j := if (i <? 0)%Z then (i + n)%Z else i in
  if (j <? 0)%Z then Raise IndexError
  else match l !! Z.to_nat j with
       | Some x => Ok x
       | None => Raise IndexError
       end.

(** [d[k]] on a Python dict. *)
Definition dict_get {V} (d : gmap string V) (k : string) : res V :=
  match d !! k with
  | Some v => Ok v
  | None => Raise (KeyError k)
  end.

(** [t[rand_index]]: selection along the first dimension by a tensor of
    indices. *)
Fixpoint index_select {A} (l : list A) (idxs : list nat) : res (list A) :=
  match idxs with
  | [] => Ok []
  | i :: idxs' =>
      x ← py_index l (Z.of_nat i);
      xs ← index_select l idxs';
      Ok (x :: xs)
  end.

(** Python's [a / b] on two ints. *)
Definition py_truediv (a b : Z) : res Q :=
  if (b =? 0)%Z then Raise ZeroDivisionError
  else Ok (inject_Z a / inject_Z b)%Q.

(** A numpy scalar quotient: [0 / 0] is nan (with a warning), not an
    exception. *)
Inductive npfloat :=
| Fin (q : Q)
| NaN.

Definition np_div (a b : Z) : npfloat :=
  if (b =? 0)%Z then NaN else Fin (inject_Z a / inject_Z b)%Q.

(** ** Tensors *)

Abbreviation Tensor1 := (list Q).
Abbreviation Tensor2 := (list (list Q)).
Abbreviation Tensor3 := (list (list (list Q))).
Abbreviation Tensor4 := (list (list (list (list Q)))).

Definition Qlt_bool (a b : Q) : bool := negb (Qle_bool b a).

Definition size0 {A} (l : list A) : Z := Z.of_nat (length l).

(** [t.shape] of a 4-D tensor, read off the first entry of every level. *)
Definition shape4 (t : Tensor4) : Z * Z * Z * Z :=
  let s := default [] (head t) in
  let p := default [] (head s) in
  let r := default [] (head p) in
  (size0 t, size0 s, size0 p, size0 r).

Definition sumQ (l : list Q) : Q := foldr Qplus 0%Q l.

Definition meanQ (l : list Q) : Q := (sumQ l / inject_Z (size0 l))%Q.

Definition map4 (f : Q → Q) (t : Tensor4) : Tensor4 :=
  map (map (map (map f))) t.

(** Element-wise binary operations; operands of different sizes raise (the
    loops only combine tensors of one shape, so broadcasting is not
    modelled). *)
Fixpoint zip_strict {A B C} (f : A → B → res C) (a : list A) (b : list B)
  : res (list C) :=
  match a, b with
  | [], [] => Ok []
  | x :: a', y :: b' =>
      z ← f x y;
      zs ← zip_strict f a' b';
      Ok (z :: zs)
  | _, _ => Raise RuntimeError
  end.

Definition ew1 (op : Q → Q → Q) : Tensor1 → Tensor1 → res Tensor1 :=
  zip_strict (λ x y, Ok (op x y)).
Definition ew2 (op : Q → Q → Q) : Tensor2 → Tensor2 → res Tensor2 :=
  zip_strict (ew1 op).
Definition ew3 (op : Q → Q → Q) : Tensor3 → Tensor3 → res Tensor3 :=
  zip_strict (ew2 op).
Definition ew4 (op : Q → Q → Q) : Tensor4 → Tensor4 → res Tensor4 :=
  zip_strict (ew3 op).

Definition tmul : Tensor4 → Tensor4 → res Tensor4 := ew4 Qmult.
Definition tadd : Tensor4 → Tensor4 → res Tensor4 := ew4 Qplus.
(** [1 - t] *)
Definition one_minus : Tensor4 → Tensor4 := map4 (λ x, 1 - x)%Q.

(** [F.adaptive_avg_pool2d(g, 1)]: the mean of every channel plane,
    [N x C x 1 x 1]. *)
Definition adaptive_avg_pool2d_1 (g : Tensor4) : Tensor2 :=
  map (map (λ plane : Tensor2, meanQ (concat plane))) g.

(** [torch.mul(fmap, weights)] with [weights] of shape [N x C x 1 x 1]. *)
Definition mul_channelwise (fmap : Tensor4) (iw : Tensor2) : Tensor4 :=
  zip_with (zip_with (λ (plane : Tensor2) (a : Q), map (map (λ x, x * a)%Q) plane))
           fmap iw.

(** [.sum(dim=1, keepdim=True)] followed by [.squeeze(dim=1)]: the planes of
    one sample added up. *)
Definition sum_channels (s : Tensor3) : Tensor2 :=
  match s with
  | [] => []
  | p :: ps => foldl (zip_with (zip_with Qplus)) p ps
  end.

Definition relu (x : Q) : Q := if Qle_bool x 0 then 0%Q else x.

(** Lines 65-68 (and 189-192) of trainer.py. *)
Definition class_activation_map (target_fmap target_gradients : Tensor4) : Tensor3 :=
  let importance_weights := adaptive_avg_pool2d_1 target_gradients in
  let weighted := mul_channelwise target_fmap importance_weights in
  map (λ s, map (map relu) (sum_channels s)) weighted.

(** [mask.unsqueeze(1).repeat([1,3,1,1])] *)
Definition repeat3 (masks : Tensor3) : Tensor4 :=
  map (λ p, [p; p; p]) masks.

(** [F.interpolate(..., size=(oh, ow), mode='nearest')]: output position [i]
    reads input position [floor(i * in / out)]. *)
Definition nearest_index (in_size out_size i : nat) : nat :=
  Nat.min (i * in_size / out_size) (in_size - 1).

Definition interp1 {A} (d : A) (out_size : nat) (l : list A) : list A :=
  map (λ i, nth (nearest_index (length l) out_size i) l d) (seq 0 out_size).

Definition interpolate_nearest (t : Tensor4) (oh ow : nat) : Tensor4 :=
  map (map (λ plane : Tensor2, interp1 [] oh (map (interp1 0%Q ow) plane))) t.

(** Lines 79-83 (and 202-206): the blending step.
    [image_a = mask * batch; image_b = (1 - mask) * batch[rand_index];
     batch = image_a + image_b]. *)
Definition blend (upsampled_attention_masks batch : Tensor4)
           (rand_index : list nat) : res Tensor4 :=
  image_a ← tmul upsampled_attention_masks batch;
  batch_b ← index_select batch rand_index;
  image_b ← tmul (one_minus upsampled_attention_masks) batch_b;
  tadd image_a image_b.

(** [torch.argmax(pred, 1)]: the position of the first largest score of a
    row. *)
Fixpoint argmax_from (best : Q) (besti i : nat) (l : list Q) : nat :=
  match l with
  | [] => besti
  | x :: l' =>
      if Qlt_bool best x then argmax_from x i (S i) l'
      else argmax_from best besti (S i) l'
  end.

Definition argmax (l : list Q) : nat :=
  match l with
  | [] => 0
  | x :: l' => argmax_from x 0 1 l'
  end.

(** [torch.sum(pred_max == labels)]; the two have one length, the batch
    size. *)
Definition count_correct (pred_max labels : list nat) : Z :=
  Z.of_nat (length (filter (λ pl, fst pl = snd pl) (zip pred_max labels))).

(** ** Collaborators *)

(** The network and the criterion handed to the loops. [forward_train] may
    update the buffers of the network (running statistics), [forward_eval]
    reads them only. [stage_output p name] is the activation of the stage
    [name] during the forward pass that produced [p].
    [generate_attentive_mask] and its default [allow_boundary] come from
    utils/misc.py, a module this development does not cover: they are
    parameters here. *)
Class Backend := {
  Weights : Type;
  Buffers : Type;
  Grad : Type;
  Logits : Type;
  OptState : Type;
  SchedState : Type;
  forward_train : Weights → Buffers → Tensor4 → Buffers * Logits;
  forward_eval : Weights → Buffers → Tensor4 → Logits;
  scores : Logits → Tensor2;
  stage_output : Logits → string → Tensor4;
  criterion : Logits → list nat → Q;
  grad_add : Grad → Grad → Grad;
  generate_attentive_mask : Tensor3 → Z → Z → bool → Tensor3;
  default_allow_boundary : bool
}.

(** A loss tensor: its value is [item], its shape as an expression is what
    [backward] differentiates. *)
Section Objects.
Context `{B : Backend}.

Inductive Loss :=
| Crit (pred : Logits) (labels : list nat)
| Scale (l : Loss) (c : Q)
| Add (l1 l2 : Loss).

Fixpoint item (l : Loss) : Q :=
  match l with
  | Crit pred labels => criterion pred labels
  | Scale l c => (item l * c)%Q
  | Add l1 l2 => (item l1 + item l2)%Q
  end.

(** The autograd engine, the optimizer and the scheduler. [stage_grad l name]
    is the gradient that reaches the output of stage [name] when [l] is
    backpropagated. *)
Class Engine := {
  autograd : Loss → Grad;
  stage_grad : Loss → string → Tensor4;
  sgd_step : OptState → Weights → Grad → OptState * Weights;
  sched_step : SchedState → OptState → SchedState * OptState
}.

Inductive Event :=
| EZeroGrad
| EForward (x : Tensor4)
| EBackward (l : Loss)
| EStep
| EClearDict
| ESchedStep
| EMask (radius num_proposals : Z) (allow_boundary : bool)
| ESaveFig (name : string) (cur_epoch : Z) (idx : nat).

(** The wrapped model: parameters with their [.grad], the train/eval flag
    and the two hook dictionaries. *)
Record Model := mkModel {
  weights : Weights;
  buffers : Buffers;
  training : bool;
  grads : option Grad;
  stage_names : list string;
  num_stages : Z;
  dict_activation : gmap string Tensor4;
  dict_gradients : gmap string (list Tensor4)
}.

Record World := mkWorld {
  model : Model;
  optimizer : OptState;
  scheduler : SchedState;
  trace : list Event
}.

End Objects.

(** The keyword arguments read by the epoch functions. *)
Record Kwargs := mkKwargs {
  cut_prob : Q;
  save_path : string;
  radius : Z;
  num_proposals : Z;
  multiplier : Z
}.

(** The random outcomes one batch may consume: [np.random.rand(1)] (a value
    of [0, 1)), [torch.randint(1, num_stages)], [torch.randperm(N)] and the
    box of [rand_bbox] (utils/misc.py). *)
Record Draws := mkDraws {
  draw_r : Q;
  draw_stage : Z;
  draw_perm : list nat;
  draw_bbox : nat * nat * nat * nat
}.

Section Collaborators.
Context `{E : Engine}.

Definition log (e : Event) (w : World) : World :=
  mkWorld (model w) (optimizer w) (scheduler w) (trace w ++ [e]).

Definition set_model (m : Model) (w : World) : World :=
  mkWorld m (optimizer w) (scheduler w) (trace w).

(** [model.train()] and [model.eval()] *)
Definition set_training (b : bool) (w : World) : World :=
  let m := model w in
  set_model (mkModel (weights m) (buffers m) b (grads m) (stage_names m)
                     (num_stages m) (dict_activation m) (dict_gradients m)) w.

(** [optimizer.zero_grad()] *)
Definition zero_grad (w : World) : World :=
  let m := model w in
  log EZeroGrad
    (set_model (mkModel (weights m) (buffers m) (training m) None (stage_names m)
                        (num_stages m) (dict_activation m) (dict_gradients m)) w).

Definition record_stages {V} (names : list string) (f : string → V)
           (d : gmap string V) : gmap string V :=
  foldl (λ d name, <[name := f name]> d) d names.

(** A forward pass of the network in its current mode: the new buffers and
    the logits. *)
Definition net_forward (m : Model) (x : Tensor4) : Buffers * Logits :=
  if training m then forward_train (weights m) (buffers m) x
  else (buffers m, forward_eval (weights m) (buffers m) x).

(** Modelled from the spec: the Attention Extractor ([Wrapper], defined
    outside src/). Every forward pass records, for each named stage, its
    output activation. *)
Definition model_call (w : World) (x : Tensor4) : World * Logits :=
  let m := model w in
  let out := net_forward m x in
  let pred := snd out in
  let acts := record_stages (stage_names m) (stage_output pred) (dict_activation m) in
  (log (EForward x)
     (set_model (mkModel (weights m) (fst out) (training m) (grads m) (stage_names m)
                         (num_stages m) acts (dict_gradients m)) w),
   pred).

(** Modelled from the spec: the Attention Extractor ([Wrapper], defined
    outside src/). A backward pass accumulates into the parameters' [.grad]
    and records, for each named stage, the gradient of its output (a
    one-element tuple, read with [[0]]). *)
Definition backward (w : World) (l : Loss) : World :=
  let m := model w in
  let g := match grads m with
           | None => autograd l
           | Some g0 => grad_add g0 (autograd l)
           end in
  let gs := record_stages (stage_names m) (λ name, [stage_grad l name])
                          (dict_gradients m) in
  log (EBackward l)
    (set_model (mkModel (weights m) (buffers m) (training m) (Some g) (stage_names m)
                        (num_stages m) (dict_activation m) gs) w).

(** [optimizer.step()]: parameters without a gradient are skipped. *)
Definition optimizer_step (w : World) : World :=
  let m := model w in
  match grads m with
  | None => log EStep w
  | Some g =>
      let out := sgd_step (optimizer w) (weights m) g in
      log EStep
        (mkWorld (mkModel (snd out) (buffers m) (training m) (grads m) (stage_names m)
                          (num_stages m) (dict_activation m) (dict_gradients m))
                 (fst out) (scheduler w) (trace w))
  end.

(** [scheduler.step()] *)
Definition scheduler_step (w : World) : World :=
  let out := sched_step (scheduler w) (optimizer w) in
  log ESchedStep (mkWorld (model w) (snd out) (fst out) (trace w)).

(** Modelled from the spec: the Attention Extractor ([Wrapper], defined
    outside src/). [clear()] drops the cached activations and gradients. *)
Definition clear_dict (w : World) : World :=
  let m := model w in
  log EClearDict
    (set_model (mkModel (weights m) (buffers m) (training m) (grads m) (stage_names m)
                        (num_stages m) ∅ ∅) w).

Definition pred_max_of (pred : Logits) : list nat := map argmax (scores pred).

(** The periodic figure dump; it touches no state of the loop. *)
Definition save_fig (cond : bool) (name : string) (cur_epoch : Z) (idx : nat)
           (w : World) : World :=
  if cond then log (ESaveFig name cur_epoch idx) w else w.

End Collaborators.

(** ** The epoch functions of utils/trainer.py *)

Section Trainer.
Context `{E : Engine}.

(** What one epoch carries from batch to batch: the mutable objects and the
    three accumulators. *)
Record LoopState := mkLoop {
  world : World;
  train_loss : Q;
  train_n_corrects : Z;
  train_n_samples : Z
}.

(** The local variables of the loop body as they stand when the body ends;
    the ones bound in the augmented branch only are options. [l_mix] is
    [mix_ratio], [occlusion_ratio] or [lam]; [l_param_info] is the pair
    (radius, number of proposals) printed into [param_info]. *)
Record Locals := mkLocals {
  l_batch : Tensor4;
  l_pred : Logits;
  l_pred_max : list nat;
  l_loss : Loss;
  l_target_stage_name : string;
  l_target_stage_index : option Z;
  l_mix : option Q;
  l_target_b : option (list nat);
  l_param_info : option (Z * Z)
}.

Definition init_loop (w : World) : LoopState := mkLoop w 0%Q 0%Z 0%Z.

(** The three accumulator updates shared by all loops. *)
Definition accumulate (st : LoopState) (w : World) (loss : Loss)
           (pred_max labels : list nat) : LoopState :=
  mkLoop w
         (train_loss st + item loss)%Q
         (train_n_corrects st + count_correct pred_max labels)%Z
         (train_n_samples st + size0 labels)%Z.

(** [train_loss / len(train_loader)] and [train_n_corrects / train_n_samples]
    after [scheduler.step()]. With no batch at all [train_loss] is still the
    Python int 0 and the first quotient raises. *)
Definition finish_epoch (n_batches : nat) (st : LoopState)
  : res (World * Q * npfloat) :=
  let w := scheduler_step (world st) in
  if (n_batches =? 0)%nat then Raise ZeroDivisionError
  else
    let epoch_train_loss := (train_loss st / inject_Z (Z.of_nat n_batches))%Q in
    let epoch_train_acc := np_div (train_n_corrects st) (train_n_samples st) in
    Ok (w, epoch_train_loss, epoch_train_acc).

(** *** train (vanilla) *)

Definition train_batch (cur_epoch : Z) (idx : nat) (data : Tensor4 * list nat)
           (st : LoopState) : res (LoopState * Locals) :=
  let '(batch, labels) := data in
  let w := zero_grad (world st) in
  let '(w, pred) := model_call w batch in
  let pred_max := pred_max_of pred in
  let loss := Crit pred labels in
  let w := save_fig ((idx mod 100 =? 0)%nat && (cur_epoch mod 20 =? 0)%Z)
                    "Train_BatchSample" cur_epoch idx w in
  let st' := accumulate st w loss pred_max labels in
  let w := backward w loss in
  let w := optimizer_step w in
  Ok (mkLoop w (train_loss st') (train_n_corrects st') (train_n_samples st'),
      mkLocals batch pred pred_max loss "None" None None None None).

Fixpoint train_loop (cur_epoch : Z) (idx : nat) (loader : list (Tensor4 * list nat))
         (st : LoopState) : res LoopState :=
  match loader with
  | [] => Ok st
  | data :: rest =>
      '(st', _) ← train_batch cur_epoch idx data st;
      train_loop cur_epoch (S idx) rest st'
  end.

Definition train (w : World) (loader : list (Tensor4 * list nat))
           (cur_epoch : Z) : res (World * Q * npfloat) :=
  let w := set_training true w in
  st ← train_loop cur_epoch 0 loader (init_loop w);
  finish_epoch (length loader) st.

(** *** train_HybridPartSwapping *)

(** Lines 76-77: [n_mix = (radius + 1) ** 2  # Number of zeros in
    attention_mask] and [mix_ratio = n_mix/(W_f*H_f)]. *)
Definition hps_mix_ratio (radius W_f H_f : Z) : res Q :=
  let n_mix := ((radius + 1) ^ 2)%Z in
  py_truediv n_mix (W_f * H_f).

Definition hps_batch (kw : Kwargs) (cur_epoch : Z) (idx : nat)
           (data : Tensor4 * list nat) (rnd : Draws) (st : LoopState)
  : res (LoopState * Locals) :=
  let '(batch, labels) := data in
  let w := zero_grad (world st) in
  let '(w, pred) := model_call w batch in
  let pred_max := pred_max_of pred in
  '(w, lc) ←
    (if Qlt_bool (draw_r rnd) (cut_prob kw) then
       let target_stage_index := (num_stages (model w) - 1)%Z in
       target_stage_name ← py_index (stage_names (model w)) target_stage_index;
       let loss := Crit pred labels in
       let w := backward w loss in
       target_fmap ← dict_get (dict_activation (model w)) target_stage_name;
       grad_tuple ← dict_get (dict_gradients (model w)) target_stage_name;
       target_gradients ← py_index grad_tuple 0;
       let w := zero_grad w in
       let w := clear_dict w in
       let '(_, _, W_f, H_f) := shape4 target_fmap in
       let cam := class_activation_map target_fmap target_gradients in
       let attention_masks :=
         generate_attentive_mask cam (radius kw) (num_proposals kw) false in
       let w := log (EMask (radius kw) (num_proposals kw) false) w in
       let '(_, _, H, W) := shape4 batch in
       let upsampled_attention_masks :=
         interpolate_nearest (repeat3 attention_masks) (Z.to_nat H) (Z.to_nat W) in
       mix_ratio ← hps_mix_ratio (radius kw) W_f H_f;
       let rand_index := draw_perm rnd in
       batch ← blend upsampled_attention_masks batch rand_index;
       let target_a := labels in
       target_b ← index_select labels rand_index;
       let '(w, pred) := model_call w batch in
       let pred_max := pred_max_of pred in
       let loss :=
         if (target_stage_index <? 3)%Z then Crit pred labels
         else Add (Scale (Crit pred target_a) mix_ratio)
                  (Scale (Crit pred target_b) (1 - mix_ratio)%Q) in
       Ok (w, mkLocals batch pred pred_max loss target_stage_name
                       (Some target_stage_index) (Some mix_ratio) (Some target_b)
                       (Some (radius kw, num_proposals kw)))
     else
       Ok (w, mkLocals batch pred pred_max (Crit pred labels) "None"
                       None None None None));
  let w := save_fig ((idx mod 150 =? 0)%nat && (cur_epoch mod 10 =? 0)%Z)
                    "Train_Orig_BatchSample" cur_epoch idx w in
  let st' := accumulate st w (l_loss lc) (l_pred_max lc) labels in
  let w := zero_grad w in
  let w := backward w (l_loss lc) in
  let w := optimizer_step w in
  Ok (mkLoop w (train_loss st') (train_n_corrects st') (train_n_samples st'), lc).

Fixpoint hps_loop (kw : Kwargs) (cur_epoch : Z) (rng : nat → Draws) (idx : nat)
         (loader : list (Tensor4 * list nat)) (st : LoopState) : res LoopState :=
  match loader with
  | [] => Ok st
  | data :: rest =>
      '(st', _) ← hps_batch kw cur_epoch idx data (rng idx) st;
      hps_loop kw cur_epoch rng (S idx) rest st'
  end.

Definition train_HybridPartSwapping (w : World) (loader : list (Tensor4 * list nat))
           (cur_epoch : Z) (kw : Kwargs) (rng : nat → Draws)
  : res (World * Q * npfloat) :=
  let w := set_training true w in
  st ← hps_loop kw cur_epoch rng 0 loader (init_loop w);
  finish_epoch (length loader) st.

(** *** train_HybridCutMix *)

(** [final_radius] is a local of the function, bound once before the loop:
    it is carried from batch to batch with the accumulators. *)
Record HcmState := mkHcm {
  hcm_loop : LoopState;
  final_radius : Z
}.

(** Lines 167-170:
    [final_radius = final_radius * (model.num_stages - target_stage_index)]
    and, for a stage index below 3, [final_radius = final_radius // 4]. *)
Definition hcm_radius_update (n_stages : Z) (final_radius target_stage_index : Z) : Z :=
  let final_radius := (final_radius * (n_stages - target_stage_index))%Z in
  if (target_stage_index <? 3)%Z then (final_radius / 4)%Z else final_radius.

(** [attention_masks.sum(dim=1)]: the rows of a plane added up. *)
Definition sum_dim1 (plane : Tensor2) : Tensor1 :=
  match plane with
  | [] => []
  | r :: rs => foldl (zip_with Qplus) r rs
  end.

(** Lines 196 and 201:
    [n_non_zero_pixels = attention_masks.sum(dim=1).sum(dim=1)] and
    [occlusion_ratio = (1 - (n_non_zero_pixels/n_total_pixels)).mean()]. *)
Definition occlusion_ratio_of (attention_masks : Tensor3) (n_total_pixels : Z) : Q :=
  let n_non_zero_pixels := map (λ plane, sumQ (sum_dim1 plane)) attention_masks in
  meanQ (map (λ n, 1 - n / inject_Z n_total_pixels)%Q n_non_zero_pixels).

Definition hcm_batch (kw : Kwargs) (cur_epoch : Z) (idx : nat)
           (data : Tensor4 * list nat) (rnd : Draws) (hst : HcmState)
  : res (HcmState * Locals) :=
  let st := hcm_loop hst in
  let final_radius := final_radius hst in
  let p_multiplier := multiplier kw in
  let '(batch, labels) := data in
  let w := zero_grad (world st) in
  let '(w, pred) := model_call w batch in
  let pred_max := pred_max_of pred in
  '(w, final_radius, lc) ←
    (if Qlt_bool (draw_r rnd) (cut_prob kw) then
       target_stage_index ←
         (if (num_stages (model w) <=? 1)%Z then Raise RuntimeError
          else Ok (draw_stage rnd));
       let final_radius :=
         hcm_radius_update (num_stages (model w)) final_radius target_stage_index in
       let num_proposals := ((num_stages (model w) - target_stage_index) * p_multiplier)%Z in
       target_stage_name ← py_index (stage_names (model w)) target_stage_index;
       let loss := Crit pred labels in
       let w := backward w loss in
       target_fmap ← dict_get (dict_activation (model w)) target_stage_name;
       grad_tuple ← dict_get (dict_gradients (model w)) target_stage_name;
       target_gradients ← py_index grad_tuple 0;
       let w := zero_grad w in
       let w := clear_dict w in
       let '(_, _, W_f, H_f) := shape4 target_fmap in
       let n_total_pixels := (W_f * H_f)%Z in
       let cam := class_activation_map target_fmap target_gradients in
       let attention_masks :=
         generate_attentive_mask cam final_radius num_proposals default_allow_boundary in
       let w := log (EMask final_radius num_proposals default_allow_boundary) w in
       let '(_, _, H, W) := shape4 batch in
       let upsampled_attention_masks :=
         interpolate_nearest (repeat3 attention_masks) (Z.to_nat H) (Z.to_nat W) in
       let occlusion_ratio := occlusion_ratio_of attention_masks n_total_pixels in
       let rand_index := draw_perm rnd in
       batch ← blend upsampled_attention_masks batch rand_index;
       let target_a := labels in
       target_b ← index_select labels rand_index;
       let '(w, pred) := model_call w batch in
       let pred_max := pred_max_of pred in
       let loss :=
         if (target_stage_index <? 3)%Z then Crit pred labels
         else Add (Scale (Crit pred target_a) (1 - occlusion_ratio)%Q)
                  (Scale (Crit pred target_b) occlusion_ratio) in
       Ok (w, final_radius,
           mkLocals batch pred pred_max loss target_stage_name
                    (Some target_stage_index) (Some occlusion_ratio) (Some target_b)
                    (Some (final_radius, num_proposals)))
     else
       Ok (w, final_radius,
           mkLocals batch pred pred_max (Crit pred labels) "None"
                    None None None None));
  let w := save_fig ((idx mod 150 =? 0)%nat && (cur_epoch mod 1 =? 0)%Z)
                    "Train_Orig_BatchSample" cur_epoch idx w in
  let st' := accumulate st w (l_loss lc) (l_pred_max lc) labels in
  let w := zero_grad w in
  let w := backward w (l_loss lc) in
  let w := optimizer_step w in
  Ok (mkHcm (mkLoop w (train_loss st') (train_n_corrects st') (train_n_samples st'))
            final_radius,
      lc).

Fixpoint hcm_epoch_loop (kw : Kwargs) (cur_epoch : Z) (rng : nat → Draws) (idx : nat)
         (loader : list (Tensor4 * list nat)) (hst : HcmState) : res HcmState :=
  match loader with
  | [] => Ok hst
  | data :: rest =>
      '(hst', _) ← hcm_batch kw cur_epoch idx data (rng idx) hst;
      hcm_epoch_loop kw cur_epoch rng (S idx) rest hst'
  end.

Definition train_HybridCutMix (w : World) (loader : list (Tensor4 * list nat))
           (cur_epoch : Z) (kw : Kwargs) (rng : nat → Draws)
  : res (World * Q * npfloat) :=
  let w := set_training true w in
  hst ← hcm_epoch_loop kw cur_epoch rng 0 loader (mkHcm (init_loop w) (radius kw));
  finish_epoch (length loader) (hcm_loop hst).

(** *** train_CutMix *)

Definition in_box (bbx1 bbx2 bby1 bby2 i j : nat) : bool :=
  (bbx1 <=? i)%nat && (i <? bbx2)%nat && (bby1 <=? j)%nat && (j <? bby2)%nat.

(** Line 338: [batch[:, :, bbx1:bbx2, bby1:bby2] = src[:, :, bbx1:bbx2, bby1:bby2]]
    with [src = batch[rand_index]]; the two must have as many samples. *)
Definition paste_box (batch src : Tensor4) (bbx1 bbx2 bby1 bby2 : nat) : res Tensor4 :=
  zip_strict
    (λ (sa sb : Tensor3),
       Ok (zip_with
             (λ (pa pb : Tensor2),
                imap (λ i ra,
                        imap (λ j x,
                                if in_box bbx1 bbx2 bby1 bby2 i j
                                then default x (pb !! i ≫= (.!! j))
                                else x) ra) pa)
             sa sb))
    batch src.

(** Line 340, "adjust lambda to exactly match pixel ratio":
    [lam = 1 - ((bbx2 - bbx1) * (bby2 - bby1) /
                (batch.size()[-1] * batch.size()[-2]))]. *)
Definition cutmix_lam (bbx1 bbx2 bby1 bby2 : nat) (d2 d3 : Z) : Q :=
  (1 - inject_Z ((Z.of_nat bbx2 - Z.of_nat bbx1) * (Z.of_nat bby2 - Z.of_nat bby1))
       / inject_Z (d3 * d2))%Q.

Definition cutmix_batch (kw : Kwargs) (cur_epoch : Z) (idx : nat)
           (data : Tensor4 * list nat) (rnd : Draws) (st : LoopState)
  : res (LoopState * Locals) :=
  let '(batch, labels) := data in
  let w := zero_grad (world st) in
  '(w, batch, pred, loss, mix, tb) ←
    (if Qlt_bool (draw_r rnd) (cut_prob kw) then
       let rand_index := draw_perm rnd in
       let labels_a := labels in
       labels_b ← index_select labels rand_index;
       let '(bbx1, bby1, bbx2, bby2) := draw_bbox rnd in
       src ← index_select batch rand_index;
       batch ← paste_box batch src bbx1 bbx2 bby1 bby2;
       let '(_, _, d2, d3) := shape4 batch in
       let lam := cutmix_lam bbx1 bbx2 bby1 bby2 d2 d3 in
       let '(w, pred) := model_call w batch in
       let loss := Add (Scale (Crit pred labels_a) lam)
                       (Scale (Crit pred labels_b) (1 - lam)%Q) in
       Ok (w, batch, pred, loss, Some lam, Some labels_b)
     else
       let '(w, pred) := model_call w batch in
       let loss := Crit pred labels in
       Ok (w, batch, pred, loss, None, None));
  let pred_max := pred_max_of pred in
  let w := save_fig ((idx mod 100 =? 0)%nat && (cur_epoch mod 20 =? 0)%Z)
                    "TrainVal_BatchSample" cur_epoch idx w in
  let w := backward w loss in
  let w := optimizer_step w in
  let st' := accumulate st w loss pred_max labels in
  Ok (st', mkLocals batch pred pred_max loss "None" None mix tb None).

Fixpoint cutmix_loop (kw : Kwargs) (cur_epoch : Z) (rng : nat → Draws) (idx : nat)
         (loader : list (Tensor4 * list nat)) (st : LoopState) : res LoopState :=
  match loader with
  | [] => Ok st
  | data :: rest =>
      '(st', _) ← cutmix_batch kw cur_epoch idx data (rng idx) st;
      cutmix_loop kw cur_epoch rng (S idx) rest st'
  end.

Definition train_CutMix (w : World) (loader : list (Tensor4 * list nat))
           (cur_epoch : Z) (kw : Kwargs) (rng : nat → Draws)
  : res (World * Q * npfloat) :=
  let w := set_training true w in
  st ← cutmix_loop kw cur_epoch rng 0 loader (init_loop w);
  finish_epoch (length loader) st.

(** *** test *)

(** The body runs under [torch.no_grad()]: the loss is a plain value, nothing
    is backpropagated. [save_path] is [None] or a directory. *)
Definition test_batch (save_path : option string) (cur_epoch : Z) (idx : nat)
           (data : Tensor4 * list nat) (st : LoopState) : LoopState :=
  let '(batch, labels) := data in
  let '(w, pred) := model_call (world st) batch in
  let pred_max := pred_max_of pred in
  let loss := Crit pred labels in
  let st' := accumulate st w loss pred_max labels in
  let w := save_fig (bool_decide (save_path ≠ None)
                     && ((idx mod 300 =? 0)%nat && (cur_epoch mod 20 =? 0)%Z))
                    "Test_BatchSample" cur_epoch idx w in
  mkLoop w (train_loss st') (train_n_corrects st') (train_n_samples st').

Fixpoint test_loop (save_path : option string) (cur_epoch : Z) (idx : nat)
         (loader : list (Tensor4 * list nat)) (st : LoopState) : LoopState :=
  match loader with
  | [] => st
  | data :: rest =>
      test_loop save_path cur_epoch (S idx) rest (test_batch save_path cur_epoch idx data st)
  end.

Definition test (w : World) (loader : list (Tensor4 * list nat))
           (save_path : option string) (cur_epoch : Z) : res (World * Q * npfloat) :=
  let w := set_training false w in
  let st := test_loop save_path cur_epoch 0 loader (init_loop w) in
  if (length loader =? 0)%nat then Raise ZeroDivisionError
  else
    let test_loss := (train_loss st / inject_Z (Z.of_nat (length loader)))%Q in
    let test_acc := np_div (train_n_corrects st) (train_n_samples st) in
    Ok (world st, test_loss, test_acc).

End Trainer.

(** ** The driver script train.py *)

Module Driver.

(** The command line arguments the control flow depends on. *)
Record Args := mkArgs {
  net_type : string;
  data_type : string;
  train_mode : string;
  num_epochs : Z
}.

Inductive failure :=
| FNameError (v : string)
| FAssertionError (msg : string).

(** The calls the script makes on the rest of the program, in order. *)
Inductive DEvent :=
| LoadData (name : string)
| BuildNet (name : string)
| Wrap (stage_names : list string)
| BuildOptimizer
| EpochStart (epoch : nat)
| RunTrain (strategy : string) (epoch : nat)
| RunTest (epoch : nat)
| WriteLog (epoch : nat)
| Finished.

(** The module-level names that are bound on some paths only. [loaders]
    stands for [train_loader], [valid_loader] and [num_classes], which are
    bound by one statement. *)
Record Env := mkEnv {
  loaders : bool;
  model : bool;
  stage_names : option (list string);
  epoch_train_loss : bool;
  events : list DEvent
}.

Inductive status :=
| Running (e : Env)
| Crashed (evs : list DEvent) (f : failure).

Definition step (s : status) (k : Env → status) : status :=
  match s with
  | Running e => k e
  | Crashed evs f => Crashed evs f
  end.

Definition emit (ev : DEvent) (e : Env) : Env :=
  mkEnv (loaders e) (model e) (stage_names e) (epoch_train_loss e) (events e ++ [ev]).

(** [str.lower()] on ASCII letters. *)
Definition lower_ascii (c : ascii) : ascii :=
  let n := nat_of_ascii c in
  if ((65 <=? n) && (n <=? 90))%nat then ascii_of_nat (n + 32) else c.

Fixpoint lower (s : string) : string :=
  match s with
  | EmptyString => EmptyString
  | String c s' => String (lower_ascii c) (lower s')
  end.

(** [sub in s] *)
Fixpoint contains (sub s : string) : bool :=
  if String.prefix sub s then true
  else match s with
       | EmptyString => false
       | String _ s' => contains sub s'
       end.

(** [assert e] where [e] is a string literal: the condition is the
    truthiness of the string, false for the empty string only. *)
Definition assert_str (msg : string) (e : Env) : status :=
  match msg with
  | EmptyString => Crashed (events e) (FAssertionError msg)
  | _ => Running e
  end.

Definition bind_loaders (name : string) (e : Env) : status :=
  Running (emit (LoadData name)
                (mkEnv true (model e) (stage_names e) (epoch_train_loss e) (events e))).

(** Lines 68-84. *)
Definition build_dataloaders (data_type : string) (e : Env) : status :=
  if String.eqb data_type "mosquitodl" then bind_loaders "mosquitodl" e
  else if String.eqb data_type "ip102" then bind_loaders "ip102" e
  else if contains "cifar" data_type then
    if String.eqb data_type "cifar10" then bind_loaders "cifar10" e
    else if String.eqb data_type "cifar100" then bind_loaders "cifar100" e
    else assert_str "Unrecognized data_type for CIFAR dataset." e
  else if String.eqb data_type "imagenet" then bind_loaders "imagenet" e
  else if String.eqb data_type "cub200" then bind_loaders "cub200" e
  else assert_str "Unsupported Dataset Type." e.

(** [model = models.X(...)] followed by the replacement of the last layer,
    which reads [num_classes]. *)
Definition bind_model (name : string) (e : Env) : status :=
  if loaders e then
    Running (emit (BuildNet name)
                  (mkEnv (loaders e) true (stage_names e) (epoch_train_loss e) (events e)))
  else Crashed (events e) (FNameError "num_classes").

(** Lines 91-107. *)
Definition build_network (net_type data_type : string) (e : Env) : status :=
  if String.eqb data_type "cifar" then Running e
  else if String.eqb net_type "resnet50" then bind_model "resnet50" e
  else if String.eqb net_type "mobilenetv2" then bind_model "mobilenetv2" e
  else if String.eqb net_type "vgg16" then bind_model "vgg16" e
  else assert_str "Invalid 'net_type' !" e.

Definition bind_stage_names (names : list string) (e : Env) : status :=
  Running (mkEnv (loaders e) (model e) (Some names) (epoch_train_loss e) (events e)).

(** Lines 109-116. *)
Definition select_stage_names (net_type : string) (e : Env) : status :=
  if contains "resnet" net_type then
    bind_stage_names ["layer1"; "layer2"; "layer3"; "layer4"] e
  else if String.eqb net_type "mobilenetv2" then
    bind_stage_names ["features.2"; "features.4"; "features.7"; "features.14"] e
  else if String.eqb net_type "vgg16" then
    bind_stage_names ["features.4"; "features.9"; "features.16"; "features.24"] e
  else assert_str "Unsupported network type !" e.

(** Line 118: [model = Wrapper(model, stage_names)] reads both names. *)
Definition wrap_model (e : Env) : status :=
  if model e then
    match stage_names e with
    | Some names => Running (emit (Wrap names) e)
    | None => Crashed (events e) (FNameError "stage_names")
    end
  else Crashed (events e) (FNameError "model").

Definition bind_epoch_train_loss (strategy : string) (epoch : nat) (e : Env) : status :=
  Running (emit (RunTrain strategy epoch)
                (mkEnv (loaders e) (model e) (stage_names e) true (events e))).

(** Lines 146-160: the dispatch on [train_mode], inside the epoch loop. *)
Definition dispatch (train_mode : string) (epoch : nat) (e : Env) : status :=
  if String.eqb train_mode "vanilla" then bind_epoch_train_loss "vanilla" epoch e
  else if String.eqb train_mode "cutmix" then bind_epoch_train_loss "cutmix" epoch e
  else if String.eqb train_mode "hybrid" then bind_epoch_train_loss "hybrid" epoch e
  else assert_str "Invalid training mode !" e.

(** Lines 162-163: the two prints read [epoch_train_loss] (and
    [epoch_train_acc], bound with it). *)
Definition print_train_metrics (e : Env) : status :=
  if epoch_train_loss e then Running e
  else Crashed (events e) (FNameError "epoch_train_loss").

(** One iteration of [for epoch in range(num_epochs)], lines 140-201. *)
Definition run_epoch (train_mode : string) (epoch : nat) (e : Env) : status :=
  step (Running (emit (EpochStart epoch) e)) (λ e,
  step (dispatch train_mode epoch e) (λ e,
  step (print_train_metrics e) (λ e,
  Running (emit (WriteLog epoch) (emit (RunTest epoch) e))))).

Fixpoint run_epochs (train_mode : string) (epochs : list nat) (e : Env) : status :=
  match epochs with
  | [] => Running e
  | epoch :: rest =>
      step (run_epoch train_mode epoch e) (run_epochs train_mode rest)
  end.

(** The script, from the dataloaders to the last print. *)
Definition main (args : Args) : status :=
  let net_type := lower (net_type args) in
  let data_type := lower (data_type args) in
  let train_mode := lower (train_mode args) in
  step (build_dataloaders data_type (mkEnv false false None false [])) (λ e,
  step (build_network net_type data_type e) (λ e,
  step (select_stage_names net_type e) (λ e,
  step (wrap_model e) (λ e,
  step (Running (emit BuildOptimizer e)) (λ e,
  step (run_epochs train_mode (seq 0 (Z.to_nat (num_epochs args))) e) (λ e,
  Running (emit Finished e))))))).

End Driver.

(** ** The bookkeeping of the epoch loop of train.py *)

Module Bookkeeping.

(** A field of a row of [logs]. *)
Inductive cell :=
| CStr (s : string)
| CInt (n : nat)
| CNum (q : Q)
| CAcc (a : npfloat).

Section Book.
Context {StateDict : Type}.

(** What one iteration binds before the bookkeeping: the values returned by
    the training function and by [test], and [model.state_dict()] of the
    model [test] returned. *)
Record EpochResult := mkEpochResult {
  epoch_train_loss : Q;
  epoch_train_acc : npfloat;
  epoch_valid_loss : Q;
  epoch_valid_acc : npfloat;
  state_dict : StateDict
}.

(** [best_dict], lines 182-186. *)
Record BestDict := mkBestDict {
  bd_epoch : nat;
  bd_best_valid_acc : npfloat;
  bd_model : StateDict
}.

(** The names of lines 131-135 and the two files of [save_path] the loop
    writes: [log.csv] (opened with mode 'w') and [best_model.pth]. *)
Record Book := mkBook {
  logs : list (list cell);
  best_valid_acc : npfloat;
  log_csv : option (list (list cell));
  best_model_pth : option BestDict
}.

(** Lines 131-135. *)
Definition init : Book :=
  mkBook [[CStr "epoch"; CStr "loss_tr"; CStr "acc_tr"; CStr "loss_val";
           CStr "acc_val"; CStr "loss_test"; CStr "acc_test"]]
         (Fin 0) None None.

(** [a > b] on numpy scalars: false when either side is nan. *)
Definition np_gt (a b : npfloat) : bool :=
  match a, b with
  | Fin x, Fin y => Qlt_bool y x
  | _, _ => false
  end.

(** Lines 170-189 of iteration [epoch]. *)
Definition record_epoch (epoch : nat) (r : EpochResult) (b : Book) : Book :=
  let logs := logs b ++ [[CInt epoch; CNum (epoch_train_loss r);
                          CAcc (epoch_train_acc r); CNum (epoch_valid_loss r);
                          CAcc (epoch_valid_acc r)]] in
  let log_csv := Some logs in
  if np_gt (epoch_valid_acc r) (best_valid_acc b) then
    let best_valid_acc := epoch_valid_acc r in
    let best_dict := mkBestDict epoch best_valid_acc (state_dict r) in
    mkBook logs best_valid_acc log_csv (Some best_dict)
  else mkBook logs (best_valid_acc b) log_csv (best_model_pth b).

(** [for epoch in range(num_epochs)], started at [epoch], one result per
    iteration. *)
Fixpoint record_epochs (epoch : nat) (results : list EpochResult) (b : Book) : Book :=
  match results with
  | [] => b
  | r :: rest => record_epochs (S epoch) rest (record_epoch epoch r b)
  end.

Definition bookkeeping (results : list EpochResult) : Book :=
  record_epochs 0 results init.

End Book.

End Bookkeeping.

(** ** A small concrete instance

    A two-class toy network on 2x2 RGB images, used to run the loops on
    concrete inputs. Its only stage output is a 2x2 single-channel map per
    sample; the mask generator clears the positions whose importance is at
    least 3. *)

Module Toy.

Definition toy_scores (x : Tensor4) : Tensor2 :=
  map (λ s : Tensor3, [sumQ (concat (concat s)); 1%Q]) x.

Definition backend : Backend := {|
  Weights := Z;
  Buffers := nat;
  Grad := Z;
  Logits := Tensor2;
  OptState := nat;
  SchedState := nat;
  forward_train := λ w b x, (S b, toy_scores x);
  forward_eval := λ w b x, toy_scores x;
  scores := λ p, p;
  stage_output := λ p name, map (λ _, [[[1; 2]; [3; 4]]]%Q) p;
  criterion := λ p labels, inject_Z (Z.of_nat (length labels));
  grad_add := Z.add;
  generate_attentive_mask := λ cam r k ab,
    map (map (map (λ x, if Qle_bool 3 x then 0%Q else 1%Q))) cam;
  default_allow_boundary := true
|}.

Fixpoint loss_size (l : @Loss backend) : Z :=
  match l with
  | Crit p _ => Z.of_nat (length (p : Tensor2))
  | Scale l _ => loss_size l
  | Add l1 l2 => (loss_size l1 + loss_size l2)%Z
  end.

Fixpoint loss_pred (l : @Loss backend) : Tensor2 :=
  match l with
  | Crit p _ => p
  | Scale l _ => loss_pred l
  | Add l1 _ => loss_pred l1
  end.

Definition engine : @Engine backend := {|
  autograd := loss_size;
  stage_grad := λ l name, map (λ _, [[[1; 1]; [1; 1]]]%Q) (loss_pred l);
  sgd_step := λ o w g, (S o, (w - g)%Z);
  sched_step := λ s o, (S s, o)
|}.

Definition world0 : @World backend :=
  mkWorld (mkModel (B := backend) 0%Z 0%nat false None
                   ["layer1"; "layer2"; "layer3"; "layer4"] 4 ∅ ∅)
          0%nat 0%nat [].

Definition img (a b c d : Q) : list (list (list Q)) :=
  [[[a; b]; [c; d]]; [[a; b]; [c; d]]; [[a; b]; [c; d]]].

(** Two batches of two images each, with their labels. *)
Definition loader : list (Tensor4 * list nat) :=
  [([img 1 2 3 4; img 0 0 0 0]%Q, [0; 1]);
   ([img 5 5 5 5; img 1 0 1 0]%Q, [1; 1])].

Definition kw (p : Q) (radius : Z) : Kwargs := mkKwargs p "results" radius 4 2.

(** Draws that take the augmented branch whenever [cut_prob > 1/4]. *)
Definition rng (stage : Z) (idx : nat) : Draws :=
  mkDraws (1 # 4) stage [1; 0]%nat (0, 0, 1, 1)%nat.

Definition data0 : Tensor4 * list nat :=
  ([img 1 2 3 4; img 0 0 0 0]%Q, [0; 1]%nat).

Definition ones : Tensor4 := [img 1 1 1 1; img 1 1 1 1]%Q.
Definition zeros : Tensor4 := [img 0 0 0 0; img 0 0 0 0]%Q.

(** Draws that take the augmented branch whenever [cut_prob > 1/4], batch
    [idx] drawing the stage [stages[idx]]. *)
Definition rng_of (stages : list Z) (idx : nat) : Draws :=
  mkDraws (1 # 4) (nth idx stages 3%Z) [1; 0]%nat (0, 0, 1, 1)%nat.

End Toy.

(** * Specification vocabulary *)

Definition all4 (P : Q → Prop) (t : Tensor4) : Prop :=
  Forall (Forall (Forall (Forall P))) t.

(** Two tensors of one shape with equal entries. *)
Definition teq4 (a b : Tensor4) : Prop :=
  Forall2 (Forall2 (Forall2 (Forall2 Qeq))) a b.

(** A coefficient of the closed unit interval. *)
Definition unit_interval (x : Q) : Prop := (0 <= x)%Q ∧ (x <= 1)%Q.

(** The sizes of a tensor at every level; two tensors have one shape when
    these agree. *)
Definition shape_of (t : Tensor4) : list (list (list nat)) :=
  map (map (map (length (A := Q)))) t.

(** A run of the script that did not stop on an [assert]. *)
Definition no_assertion (s : Driver.status) : Prop :=
  match s with
  | Driver.Crashed _ (Driver.FAssertionError _) => False
  | _ => True
  end.

Section Vocabulary.
Context `{E : Engine}.

Definition is_step (e : Event) : bool :=
  match e with
  | EStep => true
  | _ => false
  end.

Definition count_steps (t : list Event) : nat := length (List.filter is_step t).


(** The label policy of the two hybrid loops for a batch of the augmented
    branch: the batch has been blended with its permutation under some mask;
    for a target stage index below 3 the loss is the criterion against the
    original labels alone, otherwise it is the two-label mix with weights
    [coef_a] and [coef_b]. *)
Definition fine_grained_policy (batch : Tensor4) (labels : list nat) (rnd : Draws)
           (target_stage_index : Z) (coef_a coef_b : Q) (lc : Locals) : Prop :=
  ∃ mask target_b,
    blend mask batch (draw_perm rnd) = Ok (l_batch lc) ∧
    index_select labels (draw_perm rnd) = Ok target_b ∧
    l_target_stage_index lc = Some target_stage_index ∧
    l_target_b lc = Some target_b ∧
    l_loss lc =
      (if (target_stage_index <? 3)%Z then Crit (l_pred lc) labels
       else Add (Scale (Crit (l_pred lc) labels) coef_a)
                (Scale (Crit (l_pred lc) target_b) coef_b)).

(** The accuracy bookkeeping of one batch: the prediction is the output of
    the network, with the weights [m0] had, on the batch the body ended up
    with, and the count added to the accumulator compares it with the
    original labels. *)
Definition counts_against_original (m0 : Model) (labels : list nat)
           (n_before n_after : Z) (lc : Locals) : Prop :=
  (∃ m, weights m = weights m0 ∧ training m = training m0 ∧
        l_pred lc = snd (net_forward m (l_batch lc))) ∧
  l_pred_max lc = pred_max_of (l_pred lc) ∧
  n_after = (n_before + count_correct (pred_max_of (l_pred lc)) labels)%Z.

(** The sum of the batch sizes [labels.size(0)] of a loader. *)
Definition total_samples (loader : list (Tensor4 * list nat)) : Z :=
  foldr (λ data acc, (size0 (snd data) + acc)%Z) 0%Z loader.

(** The returned accuracy is the quotient of the two accumulators the loop
    ended with, and the sample accumulator is the sum of the batch sizes. *)
Definition accuracy_of_accumulators (loader : list (Tensor4 * list nat))
           (acc : npfloat) (st : LoopState) : Prop :=
  acc = np_div (train_n_corrects st) (train_n_samples st) ∧
  train_n_samples st = total_samples loader.

(** What an epoch leaves behind, but for the ghost trace: the model, the
    optimizer, the scheduler, the mean loss and the accuracy, or the
    exception. *)
Definition outcome (r : res (World * Q * npfloat))
  : res (Model * OptState * SchedState * Q * npfloat) :=
  '(w, loss, acc) ← r;
  Ok (model w, optimizer w, scheduler w, loss, acc).

Definition same_objects (w1 w2 : World) : Prop :=
  model w1 = model w2 ∧ optimizer w1 = optimizer w2 ∧ scheduler w1 = scheduler w2.

Definition same_loop (s1 s2 : LoopState) : Prop :=
  same_objects (world s1) (world s2) ∧
  train_loss s1 = train_loss s2 ∧
  train_n_corrects s1 = train_n_corrects s2 ∧
  train_n_samples s1 = train_n_samples s2.

(** The locals of a batch that went down the unmodified path. *)
Definition unmodified (data : Tensor4 * list nat) (lc : Locals) : Prop :=
  l_batch lc = fst data ∧
  l_loss lc = Crit (l_pred lc) (snd data) ∧
  l_mix lc = None ∧
  l_target_b lc = None.

(** The events of an inference-only pass: forward calls and figure dumps. *)
Definition passive (e : Event) : Prop :=
  match e with
  | EForward _ | ESaveFig _ _ _ => True
  | _ => False
  end.

(** What a call of [test] may change in the objects it is given: nothing of
    the parameters, their gradients, the buffers, the optimizer or the
    scheduler, and it makes passive calls only. *)
Definition evaluation_frame (w w' : World) : Prop :=
  weights (model w') = weights (model w) ∧
  buffers (model w') = buffers (model w) ∧
  grads (model w') = grads (model w) ∧
  optimizer w' = optimizer w ∧
  scheduler w' = scheduler w ∧
  ∃ evs, trace w' = trace w ++ evs ∧ Forall passive evs.

(** Two loop states [test] cannot tell apart: the network is in eval mode
    with the same parameters and buffers, and the accumulators agree. *)
Definition same_net (s1 s2 : LoopState) : Prop :=
  training (model (world s1)) = false ∧
  training (model (world s2)) = false ∧
  weights (model (world s1)) = weights (model (world s2)) ∧
  buffers (model (world s1)) = buffers (model (world s2)) ∧
  train_loss s1 = train_loss s2 ∧
  train_n_corrects s1 = train_n_corrects s2 ∧
  train_n_samples s1 = train_n_samples s2.

(** The radii handed to the mask generator, in call order. *)
Definition mask_radius (e : Event) : option Z :=
  match e with
  | EMask r _ _ => Some r
  | _ => None
  end.

Definition mask_radii (t : list Event) : list Z := omap mask_radius t.

(** The successive values of [final_radius] when it starts at [r] and the
    augmented batches draw the stage indices [draws]. *)
Fixpoint radius_run (n_stages r : Z) (draws : list Z) : list Z :=
  match draws with
  | [] => []
  | d :: ds =>
      let r' := hcm_radius_update n_stages r d in
      r' :: radius_run n_stages r' ds
  end.

(** The stage indices drawn by the batches [idx, idx + n) that take the
    augmented branch. *)
Fixpoint augmented_stage_draws (kw : Kwargs) (rng : nat → Draws) (idx n : nat)
  : list Z :=
  match n with
  | O => []
  | S n' =>
      (if Qlt_bool (draw_r (rng idx)) (cut_prob kw) then [draw_stage (rng idx)] else [])
        ++ augmented_stage_draws kw rng (S idx) n'
  end.

(** One batch of [train_HybridCutMix] as far as the radius goes: an augmented
    batch replaces [final_radius] by its update and hands the new value to
    the mask generator, any other batch leaves it alone and makes no call. *)
Definition radius_step (kw : Kwargs) (rnd : Draws) (hst hst' : HcmState)
           (lc : Locals) : Prop :=
  let n_stages := num_stages (model (world (hcm_loop hst))) in
  let t := trace (world (hcm_loop hst)) in
  let t' := trace (world (hcm_loop hst')) in
  num_stages (model (world (hcm_loop hst'))) = n_stages ∧
  if Qlt_bool (draw_r rnd) (cut_prob kw) then
    final_radius hst' = hcm_radius_update n_stages (final_radius hst) (draw_stage rnd) ∧
    (∃ np, l_param_info lc = Some (final_radius hst', np)) ∧
    mask_radii t' = mask_radii t ++ [final_radius hst']
  else
    final_radius hst' = final_radius hst ∧
    mask_radii t' = mask_radii t.

End Vocabulary.

(** * Further vocabulary *)

Section BatchVocabulary.
Context `{E : Engine}.

Definition is_sched_step (e : Event) : bool :=
  match e with
  | ESchedStep => true
  | _ => false
  end.

Definition count_sched_steps (t : list Event) : nat :=
  length (List.filter is_sched_step t).

(** What any batch of any training loop does to the objects and to the
    accumulators: one optimizer step, no scheduler step; the step applies the
    gradient of the final loss of the batch, alone, to the weights the batch
    started with; the three accumulators grow by the value of that loss, by
    the correct predictions against [labels] and by the batch size. *)
Definition batch_effect (labels : list nat) (st st' : LoopState) (lc : Locals) : Prop :=
  let w := world st in
  let w' := world st' in
  count_steps (trace w') = S (count_steps (trace w)) ∧
  count_sched_steps (trace w') = count_sched_steps (trace w) ∧
  scheduler w' = scheduler w ∧
  grads (model w') = Some (autograd (l_loss lc)) ∧
  (optimizer w', weights (model w')) =
    sgd_step (optimizer w) (weights (model w)) (autograd (l_loss lc)) ∧
  train_loss st' = (train_loss st + item (l_loss lc))%Q ∧
  train_n_corrects st' =
    (train_n_corrects st + count_correct (l_pred_max lc) labels)%Z ∧
  train_n_samples st' = (train_n_samples st + size0 labels)%Z.

(** The calls an epoch adds to the trace: as many optimizer steps as there
    are batches, and one scheduler step, which is the last call. *)
Definition epoch_calls (n_batches : nat) (w w' : World) : Prop :=
  count_steps (trace w') = count_steps (trace w) + n_batches ∧
  count_sched_steps (trace w') = S (count_sched_steps (trace w)) ∧
  last (trace w') = Some ESchedStep.





End BatchVocabulary.

(** ** Vocabulary of the driver *)

Definition supported_data (d : string) : bool :=
  String.eqb d "mosquitodl" || String.eqb d "ip102" || String.eqb d "cifar10"
  || String.eqb d "cifar100" || String.eqb d "imagenet" || String.eqb d "cub200".

Definition supported_net (n : string) : bool :=
  String.eqb n "resnet50" || String.eqb n "mobilenetv2" || String.eqb n "vgg16".

Definition supported_mode (m : string) : bool :=
  String.eqb m "vanilla" || String.eqb m "cutmix" || String.eqb m "hybrid".

(** The stage names the script pairs with a supported network. *)
Definition stage_names_of (n : string) : list string :=
  if String.eqb n "resnet50" then ["layer1"; "layer2"; "layer3"; "layer4"]
  else if String.eqb n "mobilenetv2" then
    ["features.2"; "features.4"; "features.7"; "features.14"]
  else ["features.4"; "features.9"; "features.16"; "features.24"].

(** The calls of a run up to the epoch loop, and the calls of one epoch. *)
Definition setup_events (d n : string) : list Driver.DEvent :=
  [Driver.LoadData d; Driver.BuildNet n; Driver.Wrap (stage_names_of n);
   Driver.BuildOptimizer].

Definition epoch_events (m : string) (epoch : nat) : list Driver.DEvent :=
  [Driver.EpochStart epoch; Driver.RunTrain m epoch; Driver.RunTest epoch;
   Driver.WriteLog epoch].

(** The namespace of the script before its first statement. *)
Definition env0 : Driver.Env := Driver.mkEnv false false None false [].


(** ** Vocabulary of the bookkeeping *)

Section BookkeepingVocabulary.
Context {StateDict : Type}.



(** [best_valid_acc] is a number, the largest of 0 and the accuracies of
    [rs]; the checkpoint, when there is one, is the first epoch of [rs] that
    reached it. *)
Definition checkpoint_invariant (rs : list (@Bookkeeping.EpochResult StateDict))
           (b : @Bookkeeping.Book StateDict) : Prop :=
  ∃ q, Bookkeeping.best_valid_acc b = Fin q ∧ (0 <= q)%Q ∧
       (∀ k r x, rs !! k = Some r → Bookkeeping.epoch_valid_acc r = Fin x → (x <= q)%Q) ∧
       match Bookkeeping.best_model_pth b with
       | None => q = 0%Q
       | Some bd =>
           Bookkeeping.bd_best_valid_acc bd = Fin q ∧ (0 < q)%Q ∧
           ∃ r, rs !! Bookkeeping.bd_epoch bd = Some r ∧
                Bookkeeping.epoch_valid_acc r = Fin q ∧
                Bookkeeping.bd_model bd = Bookkeeping.state_dict r ∧
                ∀ k r' x, k < Bookkeeping.bd_epoch bd → rs !! k = Some r' →
                          Bookkeeping.epoch_valid_acc r' = Fin x → (x < q)%Q
       end.

End BookkeepingVocabulary.

(** * Properties *)

(** ** Results and strict zips *)

Lemma bind_Ok {A B} (m : res A) (k : A → res B) (r : B) :
  m ≫= k = Ok r → ∃ a, m = Ok a ∧ k a = Ok r.
Proof.
  destruct m as [a|e]; simpl; intros Hk; [|discriminate].
  exists a. split; [reflexivity|exact Hk].
Qed.

(** Inverts every hypothesis of the shape [m ≫= k = Ok r]. *)
Ltac res_inv :=
  repeat match goal with
    | H : _ ≫= _ = Ok _ |- _ =>
        let a := fresh "a" in
        let Ha := fresh "Ha" in
        apply bind_Ok in H; destruct H as (a & Ha & H)
    | H : Ok _ = Ok _ |- _ => injection H as H; try subst
    | H : Raise _ = Ok _ |- _ => discriminate H
    | H : (if ?c then Raise _ else _) = Ok _ |- _ =>
        let Hc := fresh "Hc" in destruct c eqn:Hc; [discriminate H|]
    end.

Lemma zip_strict_cons_Ok {A B C} (f : A → B → res C) x a y b c :
  zip_strict f (x :: a) (y :: b) = Ok c →
  ∃ z zs, c = z :: zs ∧ f x y = Ok z ∧ zip_strict f a b = Ok zs.
Proof.
  cbn [zip_strict]. intros H. res_inv. eauto.
Qed.

Lemma zip_strict_length {A B C} (f : A → B → res C) a b c :
  zip_strict f a b = Ok c → length a = length b ∧ length c = length a.
Proof.
  revert b c. induction a as [|x a IH]; intros [|y b] c H; try discriminate.
  - injection H as <-. split; reflexivity.
  - apply zip_strict_cons_Ok in H as (z & zs & -> & _ & Hzs).
    destruct (IH _ _ Hzs) as [H1 H2]. simpl. split; congruence.
Qed.

(** ** The blending step *)



Section BlendLevel.
Context {A : Type} (mul add : A → A → res A) (om : A → A).
Context (sel : A → Prop) (eqv : A → A → Prop).

(** If the mask entries satisfying [sel] make the blend return its first
    operand, so they do one level of nesting up. *)
Lemma blend_level_first :
  (∀ u x y a b m, sel u → mul u x = Ok a → mul (om u) y = Ok b →
                  add a b = Ok m → eqv m x) →
  ∀ us xs ys a_s bs ms,
    Forall sel us →
    zip_strict mul us xs = Ok a_s →
    zip_strict mul (map om us) ys = Ok bs →
    zip_strict add a_s bs = Ok ms →
    Forall2 eqv ms xs.
Proof.
  intros Hbase us. induction us as [|u us IH]; intros xs ys a_s bs ms Hsel Ha Hb Hm.
  - destruct xs; [|discriminate]. injection Ha as <-.
    destruct ys; [|discriminate]. injection Hb as <-.
    injection Hm as <-. constructor.
  - destruct xs as [|x xs]; [discriminate|].
    destruct ys as [|y ys]; [discriminate|].
    apply zip_strict_cons_Ok in Ha as (a & a_s' & -> & Ha & Ha_s).
    cbn [map] in Hb.
    apply zip_strict_cons_Ok in Hb as (b & bs' & -> & Hb & Hbs).
    apply zip_strict_cons_Ok in Hm as (m & ms' & -> & Hm & Hms).
    inversion Hsel; subst. constructor; eauto.
Qed.

(** The same for mask entries that make the blend return its second
    operand. *)
Lemma blend_level_second :
  (∀ u x y a b m, sel u → mul u x = Ok a → mul (om u) y = Ok b →
                  add a b = Ok m → eqv m y) →
  ∀ us xs ys a_s bs ms,
    Forall sel us →
    zip_strict mul us xs = Ok a_s →
    zip_strict mul (map om us) ys = Ok bs →
    zip_strict add a_s bs = Ok ms →
    Forall2 eqv ms ys.
Proof.
  intros Hbase us. induction us as [|u us IH]; intros xs ys a_s bs ms Hsel Ha Hb Hm.
  - destruct xs; [|discriminate]. injection Ha as <-.
    destruct ys; [|discriminate]. injection Hb as <-.
    injection Hm as <-. constructor.
  - destruct xs as [|x xs]; [discriminate|].
    destruct ys as [|y ys]; [discriminate|].
    apply zip_strict_cons_Ok in Ha as (a & a_s' & -> & Ha & Ha_s).
    cbn [map] in Hb.
    apply zip_strict_cons_Ok in Hb as (b & bs' & -> & Hb & Hbs).
    apply zip_strict_cons_Ok in Hm as (m & ms' & -> & Hm & Hms).
    inversion Hsel; subst. constructor; eauto.
Qed.

End BlendLevel.

Lemma blend_scalar_one (u x y a b m : Q) :
  (u == 1)%Q → Ok (u * x)%Q = Ok a → Ok ((1 - u) * y)%Q = Ok b →
  Ok (a + b)%Q = Ok m → (m == x)%Q.
Proof.
  intros Hu [= <-] [= <-] [= <-]. rewrite Hu. ring.
Qed.

Lemma blend_scalar_zero (u x y a b m : Q) :
  (u == 0)%Q → Ok (u * x)%Q = Ok a → Ok ((1 - u) * y)%Q = Ok b →
  Ok (a + b)%Q = Ok m → (m == y)%Q.
Proof.
  intros Hu [= <-] [= <-] [= <-]. rewrite Hu. ring.
Qed.

Lemma blend_inv up batch rand_index mixed :
  blend up batch rand_index = Ok mixed →
  ∃ image_a batch_b image_b,
    tmul up batch = Ok image_a ∧
    index_select batch rand_index = Ok batch_b ∧
    tmul (one_minus up) batch_b = Ok image_b ∧
    tadd image_a image_b = Ok mixed.
Proof.
  unfold blend. intros H. res_inv. eauto 8.
Qed.

Lemma zip_strict_total {A B C S : Type} (f : A → B → res C)
      (sa : A → S) (sb : B → S) (sc : C → S) :
  (∀ x y, sa x = sb y → ∃ z, f x y = Ok z ∧ sc z = sa x) →
  ∀ a b, map sa a = map sb b →
         ∃ c, zip_strict f a b = Ok c ∧ map sc c = map sa a.
Proof.
  intros Hf a. induction a as [|x a IH]; intros [|y b] Hs; try discriminate Hs.
  - exists []. split; reflexivity.
  - cbn [map] in Hs. injection Hs as Hxy Hab.
    destruct (Hf x y Hxy) as (z & Hz & Hsz).
    destruct (IH b Hab) as (c & Hc & Hsc).
    exists (z :: c). cbn [zip_strict map]. rewrite Hz, Hc, Hsz, Hsc.
    split; reflexivity.
Qed.

Lemma ew4_total (op : Q → Q → Q) (a b : Tensor4) :
  shape_of a = shape_of b →
  ∃ c, ew4 op a b = Ok c ∧ shape_of c = shape_of a.
Proof.
  unfold ew4, ew3, ew2, ew1, shape_of.
  apply zip_strict_total. intros a3 b3.
  apply zip_strict_total. intros a2 b2.
  apply zip_strict_total. intros a1 b1.
  intros Hlen.
  destruct (zip_strict_total (S := unit) (λ x y : Q, Ok (op x y))
              (λ _, tt) (λ _, tt) (λ _, tt)
              ltac:(intros x y _; eexists; split; reflexivity) a1 b1) as (c & Hc & _).
  { clear -Hlen. revert b1 Hlen.
    induction a1 as [|x a1 IH]; intros [|y b1] Hlen; try discriminate Hlen.
    - reflexivity.
    - cbn [map]. f_equal. apply IH. cbn [length] in Hlen. congruence. }
  exists c. split; [exact Hc|].
  apply zip_strict_length in Hc. apply Hc.
Qed.

Lemma shape_of_one_minus (t : Tensor4) : shape_of (one_minus t) = shape_of t.
Proof.
  unfold shape_of, one_minus, map4. rewrite map_map. apply map_ext. intros s.
  rewrite map_map. apply map_ext. intros p.
  rewrite map_map. apply map_ext. intros r.
  apply length_map.
Qed.

Lemma blend_total (up batch : Tensor4) (rand_index : list nat) (batch_b : Tensor4) :
  shape_of up = shape_of batch →
  index_select batch rand_index = Ok batch_b →
  shape_of batch_b = shape_of up →
  ∃ mixed, blend up batch rand_index = Ok mixed.
Proof.
  intros Hs Hsel Hb. unfold blend, tmul, tadd.
  destruct (ew4_total Qmult up batch Hs) as (ia & Hia & Hsa).
  destruct (ew4_total Qmult (one_minus up) batch_b) as (ib & Hib & Hsb).
  { rewrite shape_of_one_minus. congruence. }
  destruct (ew4_total Qplus ia ib) as (mixed & Hm & _).
  { rewrite Hsa, Hsb, shape_of_one_minus. reflexivity. }
  exists mixed. rewrite Hia. cbn [mbind res_bind]. rewrite Hsel. cbn [mbind res_bind].
  rewrite Hib. cbn [mbind res_bind]. exact Hm.
Qed.

Lemma blend_ones_zeros (up batch : Tensor4) (rand_index : list nat) (mixed : Tensor4) :
  blend up batch rand_index = Ok mixed →
  (all4 (λ m, m == 1)%Q up → teq4 mixed batch) ∧
  (all4 (λ m, m == 0)%Q up →
   ∃ batch_b, index_select batch rand_index = Ok batch_b ∧ teq4 mixed batch_b).
Proof.
  intros H. apply blend_inv in H as (ia & bb & ib & Ha & Hsel & Hb & Hm).
  unfold tmul, tadd, ew4, ew3, ew2, ew1, one_minus, map4 in *.
  split; intros Hmask.
  - eapply (blend_level_first _ _ _ _ _); [| exact Hmask | exact Ha | exact Hb | exact Hm].
    do 3 (let Hs := fresh in let H1 := fresh in let H2 := fresh in let H3 := fresh in
          intros ? ? ? ? ? ? Hs H1 H2 H3;
          eapply (blend_level_first _ _ _ _ _);
          [| exact Hs | exact H1 | exact H2 | exact H3]).
    intros ? ? ? ? ? ? HsQ HaQ HbQ HmQ.
    exact (blend_scalar_one _ _ _ _ _ _ HsQ HaQ HbQ HmQ).
  - exists bb. split; [exact Hsel|].
    eapply (blend_level_second _ _ _ _ _); [| exact Hmask | exact Ha | exact Hb | exact Hm].
    do 3 (let Hs := fresh in let H1 := fresh in let H2 := fresh in let H3 := fresh in
          intros ? ? ? ? ? ? Hs H1 H2 H3;
          eapply (blend_level_second _ _ _ _ _);
          [| exact Hs | exact H1 | exact H2 | exact H3]).
    intros ? ? ? ? ? ? HsQ HaQ HbQ HmQ.
    exact (blend_scalar_zero _ _ _ _ _ _ HsQ HaQ HbQ HmQ).
Qed.

(** C5. In the blending step
    [mixed = mask*batch + (1-mask)*batch[rand_index]], for every batch and
    every permutation (the mask having the shape of the batch): a mask of
    ones gives back the batch, a mask of zeros gives the permuted batch. *)
Theorem blend_all_ones_all_zeros (up batch : Tensor4) (rand_index : list nat)
        (batch_b : Tensor4) :
  shape_of up = shape_of batch →
  index_select batch rand_index = Ok batch_b →
  shape_of batch_b = shape_of up →
  ∃ mixed,
    blend up batch rand_index = Ok mixed ∧
    (all4 (λ m, m == 1)%Q up → teq4 mixed batch) ∧
    (all4 (λ m, m == 0)%Q up → teq4 mixed batch_b).
Proof.
  intros Hs Hsel Hb.
  destruct (blend_total up batch rand_index batch_b Hs Hsel Hb) as (mixed & Hm).
  exists mixed. split; [exact Hm|].
  destruct (blend_ones_zeros up batch rand_index mixed Hm) as [H1 H0].
  split; [exact H1|].
  intros Hz. destruct (H0 Hz) as (bb & Hsel' & Heq).
  rewrite Hsel in Hsel'. injection Hsel' as <-. exact Heq.
Qed.

(** ** The two passes of the attention-guided branch *)

(** The body of a loop, unfolded down to the calls on the collaborators. *)
Ltac body_cbn H :=
  cbn -[blend class_activation_map interpolate_nearest index_select py_index
        dict_get hps_mix_ratio shape4 record_stages generate_attentive_mask
        net_forward occlusion_ratio_of hcm_radius_update Z.leb Z.ltb
        Nat.modulo Z.modulo Nat.eqb Z.eqb item count_correct Qlt_bool
        paste_box pred_max_of cutmix_lam] in H.

Ltac shape_destruct :=
  match goal with
  | H : context [shape4 ?t] |- _ =>
      let n := fresh "N" in let c := fresh "C" in
      let h := fresh "H" in let w := fresh "W" in
      destruct (shape4 t) as [[[n c] h] w]
  end.

Section TwoPasses.
Context `{E : Engine}.



Lemma count_steps_app (t1 t2 : list Event) :
  count_steps (t1 ++ t2) = count_steps t1 + count_steps t2.
Proof.
  unfold count_steps. rewrite List.filter_app, length_app. reflexivity.
Qed.





(** ** The label policy and the accuracy count of an augmented batch *)

Ltac policy_tac :=
  unfold fine_grained_policy; cbn -[blend index_select net_forward Z.ltb];
  eexists _, _; repeat split; try eassumption; reflexivity.

Ltac counts_tac :=
  unfold counts_against_original, save_fig;
  destruct (_ && _);
    cbn -[net_forward count_correct pred_max_of record_stages];
    (split; [ eexists; (split; [| split]); [| | reflexivity]; reflexivity
            | split; reflexivity ]).

Lemma hps_batch_policy kw cur_epoch idx batch labels rnd st st' lc :
  Qlt_bool (draw_r rnd) (cut_prob kw) = true →
  hps_batch kw cur_epoch idx (batch, labels) rnd st = Ok (st', lc) →
  ∃ mix_ratio,
    l_mix lc = Some mix_ratio ∧
    fine_grained_policy batch labels rnd (num_stages (model (world st)) - 1)
                        mix_ratio (1 - mix_ratio)%Q lc.
Proof.
  intros Hr H. unfold hps_batch in H. rewrite Hr in H. body_cbn H.
  res_inv. repeat shape_destruct. res_inv.
  eexists. split; [reflexivity|]. policy_tac.
Qed.

Lemma hcm_batch_policy kw cur_epoch idx batch labels rnd hst hst' lc :
  Qlt_bool (draw_r rnd) (cut_prob kw) = true →
  hcm_batch kw cur_epoch idx (batch, labels) rnd hst = Ok (hst', lc) →
  ∃ occlusion_ratio,
    l_mix lc = Some occlusion_ratio ∧
    fine_grained_policy batch labels rnd (draw_stage rnd)
                        (1 - occlusion_ratio)%Q occlusion_ratio lc.
Proof.
  intros Hr H. unfold hcm_batch in H. rewrite Hr in H. body_cbn H.
  res_inv. repeat shape_destruct. res_inv.
  eexists. split; [reflexivity|]. policy_tac.
Qed.

(** C6. In both hybrid loops, a batch of the augmented branch whose target
    stage index is below 3 computes its loss against the original labels
    only, although the batch has been blended; from index 3 on the loss is
    the two-label mix. *)
Theorem fine_grained_stage_skips_label_mixing
        (kw : Kwargs) (cur_epoch : Z) (idx : nat) (batch : Tensor4)
        (labels : list nat) (rnd : Draws) :
  Qlt_bool (draw_r rnd) (cut_prob kw) = true →
  (∀ st st' lc,
     hps_batch kw cur_epoch idx (batch, labels) rnd st = Ok (st', lc) →
     ∃ mix_ratio,
       l_mix lc = Some mix_ratio ∧
       fine_grained_policy batch labels rnd (num_stages (model (world st)) - 1)
                           mix_ratio (1 - mix_ratio)%Q lc) ∧
  (∀ hst hst' lc,
     hcm_batch kw cur_epoch idx (batch, labels) rnd hst = Ok (hst', lc) →
     ∃ occlusion_ratio,
       l_mix lc = Some occlusion_ratio ∧
       fine_grained_policy batch labels rnd (draw_stage rnd)
                           (1 - occlusion_ratio)%Q occlusion_ratio lc).
Proof.
  intros Hr. split.
  - intros st st' lc H. exact (hps_batch_policy _ _ _ _ _ _ _ _ _ Hr H).
  - intros hst hst' lc H. exact (hcm_batch_policy _ _ _ _ _ _ _ _ _ Hr H).
Qed.

Lemma hps_batch_counts kw cur_epoch idx batch labels rnd st st' lc :
  Qlt_bool (draw_r rnd) (cut_prob kw) = true →
  hps_batch kw cur_epoch idx (batch, labels) rnd st = Ok (st', lc) →
  (∃ mask, blend mask batch (draw_perm rnd) = Ok (l_batch lc)) ∧
  counts_against_original (model (world st)) labels
                          (train_n_corrects st) (train_n_corrects st') lc.
Proof.
  intros Hr H. unfold hps_batch in H. rewrite Hr in H. body_cbn H.
  res_inv. repeat shape_destruct. res_inv.
  split; [eexists; eassumption|]. counts_tac.
Qed.

Lemma hcm_batch_counts kw cur_epoch idx batch labels rnd hst hst' lc :
  Qlt_bool (draw_r rnd) (cut_prob kw) = true →
  hcm_batch kw cur_epoch idx (batch, labels) rnd hst = Ok (hst', lc) →
  (∃ mask, blend mask batch (draw_perm rnd) = Ok (l_batch lc)) ∧
  counts_against_original (model (world (hcm_loop hst))) labels
                          (train_n_corrects (hcm_loop hst))
                          (train_n_corrects (hcm_loop hst')) lc.
Proof.
  intros Hr H. unfold hcm_batch in H. rewrite Hr in H. body_cbn H.
  res_inv. repeat shape_destruct. res_inv.
  split; [eexists; eassumption|]. counts_tac.
Qed.

Lemma cutmix_batch_counts kw cur_epoch idx batch labels rnd st st' lc :
  Qlt_bool (draw_r rnd) (cut_prob kw) = true →
  cutmix_batch kw cur_epoch idx (batch, labels) rnd st = Ok (st', lc) →
  (∃ src bbx1 bby1 bbx2 bby2,
     draw_bbox rnd = (bbx1, bby1, bbx2, bby2) ∧
     index_select batch (draw_perm rnd) = Ok src ∧
     paste_box batch src bbx1 bbx2 bby1 bby2 = Ok (l_batch lc)) ∧
  counts_against_original (model (world st)) labels
                          (train_n_corrects st) (train_n_corrects st') lc.
Proof.
  intros Hr H. unfold cutmix_batch in H. rewrite Hr in H. body_cbn H.
  destruct (draw_bbox rnd) as [[[bbx1 bby1] bbx2] bby2].
  res_inv. repeat shape_destruct. res_inv.
  split; [eexists _, _, _, _, _; repeat split; eassumption|]. counts_tac.
Qed.

(** C9. In every training loop, a batch that takes the augmented branch adds
    to the accuracy accumulator the number of positions where the prediction
    computed on the mixed batch equals the original, unpermuted label; the
    permuted labels take no part in it. *)
Theorem augmented_accuracy_uses_original_labels
        (kw : Kwargs) (cur_epoch : Z) (idx : nat) (batch : Tensor4)
        (labels : list nat) (rnd : Draws) :
  Qlt_bool (draw_r rnd) (cut_prob kw) = true →
  (∀ st st' lc,
     hps_batch kw cur_epoch idx (batch, labels) rnd st = Ok (st', lc) →
     (∃ mask, blend mask batch (draw_perm rnd) = Ok (l_batch lc)) ∧
     counts_against_original (model (world st)) labels
                             (train_n_corrects st) (train_n_corrects st') lc) ∧
  (∀ hst hst' lc,
     hcm_batch kw cur_epoch idx (batch, labels) rnd hst = Ok (hst', lc) →
     (∃ mask, blend mask batch (draw_perm rnd) = Ok (l_batch lc)) ∧
     counts_against_original (model (world (hcm_loop hst))) labels
                             (train_n_corrects (hcm_loop hst))
                             (train_n_corrects (hcm_loop hst')) lc) ∧
  (∀ st st' lc,
     cutmix_batch kw cur_epoch idx (batch, labels) rnd st = Ok (st', lc) →
     (∃ src bbx1 bby1 bbx2 bby2,
        draw_bbox rnd = (bbx1, bby1, bbx2, bby2) ∧
        index_select batch (draw_perm rnd) = Ok src ∧
        paste_box batch src bbx1 bbx2 bby1 bby2 = Ok (l_batch lc)) ∧
     counts_against_original (model (world st)) labels
                             (train_n_corrects st) (train_n_corrects st') lc).
Proof.
  intros Hr. split; [|split].
  - intros st st' lc H. exact (hps_batch_counts _ _ _ _ _ _ _ _ _ Hr H).
  - intros hst hst' lc H. exact (hcm_batch_counts _ _ _ _ _ _ _ _ _ Hr H).
  - intros st st' lc H. exact (cutmix_batch_counts _ _ _ _ _ _ _ _ _ Hr H).
Qed.

(** ** The label-mixing coefficient *)

Lemma mixed_loss_coef_one (pred : Logits) (label_a label_b : list nat) (coef : Q) :
  (coef == 1)%Q →
  (item (Add (Scale (Crit pred label_a) coef) (Scale (Crit pred label_b) (1 - coef)%Q))
   == criterion pred label_a)%Q.
Proof.
  intros Hc. cbn [item]. rewrite Hc. ring.
Qed.

End TwoPasses.

Lemma hps_mix_ratio_unit_interval (radius W_f H_f : Z) (q : Q) :
  (0 < W_f * H_f)%Z →
  hps_mix_ratio radius W_f H_f = Ok q →
  ((0 <= q)%Q ∧ (q <= 1)%Q) ↔ ((radius + 1) ^ 2 <= W_f * H_f)%Z.
Proof.
  unfold hps_mix_ratio, py_truediv. intros Hpos H.
  destruct (W_f * H_f)%Z as [|d|d] eqn:Hd; try lia.
  cbn in H. injection H as <-.
  assert (Hn : (0 <= (radius + 1) ^ 2)%Z) by (apply Z.pow_even_nonneg; exists 1%Z; reflexivity).
  unfold Qle, Qdiv, Qmult, Qinv, inject_Z. cbn. lia.
Qed.

Lemma cutmix_lam_unit_interval (bbx1 bbx2 bby1 bby2 : nat) (d2 d3 : Z) :
  (bbx1 <= bbx2)%nat → (Z.of_nat bbx2 <= d2)%Z →
  (bby1 <= bby2)%nat → (Z.of_nat bby2 <= d3)%Z →
  (0 < d3 * d2)%Z →
  (0 <= cutmix_lam bbx1 bbx2 bby1 bby2 d2 d3)%Q ∧
  (cutmix_lam bbx1 bbx2 bby1 bby2 d2 d3 <= 1)%Q.
Proof.
  intros Hx Hx2 Hy Hy2 Hpos. unfold cutmix_lam.
  set (area := ((Z.of_nat bbx2 - Z.of_nat bbx1) * (Z.of_nat bby2 - Z.of_nat bby1))%Z).
  assert (Ha0 : (0 <= area)%Z) by (unfold area; nia).
  assert (Ha1 : (area <= d3 * d2)%Z) by (unfold area; nia).
  destruct (d3 * d2)%Z as [|d|d]; try lia.
  unfold Qle, Qminus, Qplus, Qopp, Qdiv, Qmult, Qinv, inject_Z. cbn. split; nia.
Qed.

Lemma sumQ_zip_with_plus (a b : list Q) :
  length a = length b →
  (sumQ (zip_with Qplus a b) == sumQ a + sumQ b)%Q.
Proof.
  revert b. induction a as [|x a IH]; intros [|y b] Hlen; try discriminate Hlen.
  - reflexivity.
  - cbn [zip_with sumQ foldr]. injection Hlen as Hlen.
    fold (sumQ (zip_with Qplus a b)) (sumQ a) (sumQ b).
    rewrite (IH b Hlen). ring.
Qed.

Lemma sum_rows_total (rs : list (list Q)) : ∀ r,
  Forall (λ row, length row = length r) rs →
  (sumQ (foldl (zip_with Qplus) r rs) == sumQ r + sumQ (map sumQ rs))%Q.
Proof.
  induction rs as [|x rs IH]; intros r Hlen.
  - cbn [foldl map]. change (sumQ []) with 0%Q. ring.
  - inversion Hlen as [|? ? Hx Hrs]; subst. cbn [foldl map].
    rewrite IH.
    + rewrite sumQ_zip_with_plus by (symmetry; exact Hx).
      change (sumQ (sumQ x :: map sumQ rs)) with (sumQ x + sumQ (map sumQ rs))%Q.
      ring.
    + rewrite length_zip_with, Hx, Nat.min_id.
      eapply Forall_impl; [exact Hrs|]. intros row Hrow. cbn in Hrow. congruence.
Qed.

Lemma sum_dim1_total (plane : list (list Q)) (H_f : nat) :
  Forall (λ row, length row = H_f) plane →
  (sumQ (sum_dim1 plane) == sumQ (map sumQ plane))%Q.
Proof.
  destruct plane as [|r rs]; intros Hlen; [reflexivity|].
  inversion Hlen as [|? ? Hr Hrs]; subst. cbn [sum_dim1].
  rewrite sum_rows_total; [reflexivity|exact Hrs].
Qed.

Lemma sumQ_unit_bounds (l : list Q) :
  Forall unit_interval l →
  (0 <= sumQ l)%Q ∧ (sumQ l <= inject_Z (Z.of_nat (length l)))%Q.
Proof.
  induction 1 as [|x l [Hx0 Hx1] _ [IH0 IH1]].
  - cbn. split; apply Qle_refl.
  - cbn [sumQ foldr length]. fold (sumQ l).
    rewrite Nat2Z.inj_succ, <- Z.add_1_l, inject_Z_plus.
    split.
    + apply (Qplus_le_compat 0 x 0 (sumQ l)); assumption.
    + apply Qplus_le_compat; assumption.
Qed.

Lemma sumQ_scaled_bounds (l : list Q) (c : Q) :
  (0 <= c)%Q →
  Forall (λ x, (0 <= x)%Q ∧ (x <= c)%Q) l →
  (0 <= sumQ l)%Q ∧ (sumQ l <= inject_Z (Z.of_nat (length l)) * c)%Q.
Proof.
  intros Hc. induction 1 as [|x l [Hx0 Hx1] _ [IH0 IH1]].
  - cbn. split; [apply Qle_refl|]. rewrite Qmult_0_l. apply Qle_refl.
  - cbn [sumQ foldr length]. fold (sumQ l).
    rewrite Nat2Z.inj_succ, <- Z.add_1_l, inject_Z_plus.
    split.
    + apply (Qplus_le_compat 0 x 0 (sumQ l)); assumption.
    + rewrite Qmult_plus_distr_l, Qmult_1_l. apply Qplus_le_compat; assumption.
Qed.

Lemma one_minus_fraction_unit (n : Q) (total : Z) :
  (0 < total)%Z → (0 <= n)%Q → (n <= inject_Z total)%Q →
  unit_interval (1 - n / inject_Z total).
Proof.
  intros Hpos Hn0 Hn1.
  assert (Ht : (0 < inject_Z total)%Q) by (unfold Qlt, inject_Z; cbn; lia).
  assert (H0 : (0 <= n / inject_Z total)%Q)
    by (apply Qle_shift_div_l; [exact Ht|rewrite Qmult_0_l; exact Hn0]).
  assert (H1 : (n / inject_Z total <= 1)%Q)
    by (apply Qle_shift_div_r; [exact Ht|rewrite Qmult_1_l; exact Hn1]).
  split; lra.
Qed.

Lemma meanQ_unit (l : list Q) :
  l ≠ [] → Forall unit_interval l → unit_interval (meanQ l).
Proof.
  intros Hne Hl. destruct (sumQ_unit_bounds l Hl) as [H0 H1].
  assert (Ht : (0 < inject_Z (size0 l))%Q).
  { unfold size0, Qlt, inject_Z. cbn. destruct l; [congruence|cbn [length]; lia]. }
  unfold meanQ. split.
  - apply Qle_shift_div_l; [exact Ht|rewrite Qmult_0_l; exact H0].
  - apply Qle_shift_div_r; [exact Ht|rewrite Qmult_1_l; exact H1].
Qed.

Lemma plane_total_bounds (plane : list (list Q)) (H_f : nat) :
  Forall (λ row, length row = H_f ∧ Forall unit_interval row) plane →
  (0 <= sumQ (sum_dim1 plane))%Q ∧
  (sumQ (sum_dim1 plane) <= inject_Z (Z.of_nat (length plane) * Z.of_nat H_f))%Q.
Proof.
  intros Hp.
  rewrite (sum_dim1_total plane H_f)
    by (eapply Forall_impl; [exact Hp|]; intros row [Hr _]; exact Hr).
  destruct (sumQ_scaled_bounds (map sumQ plane) (inject_Z (Z.of_nat H_f))) as [H0 H1].
  - unfold Qle, inject_Z; cbn; lia.
  - apply Forall_map. eapply Forall_impl; [exact Hp|].
    intros row [Hr Hu]. cbn. rewrite <- Hr. apply sumQ_unit_bounds, Hu.
  - rewrite length_map in H1. rewrite inject_Z_mult. split; assumption.
Qed.

(** The coefficient of [train_HybridCutMix]: for masks with entries in
    [0, 1] (the mask generator returns zeros and ones) over a non-empty stage
    map, [occlusion_ratio] lies in [0, 1]. *)
Lemma occlusion_ratio_unit_interval (masks : list (list (list Q))) (W_f H_f : nat) :
  masks ≠ [] →
  (0 < Z.of_nat W_f * Z.of_nat H_f)%Z →
  Forall (λ plane, length plane = W_f ∧
                   Forall (λ row, length row = H_f ∧ Forall unit_interval row) plane)
         masks →
  unit_interval (occlusion_ratio_of masks (Z.of_nat W_f * Z.of_nat H_f)).
Proof.
  intros Hne Hpos Hm. unfold occlusion_ratio_of. apply meanQ_unit.
  - destruct masks; [congruence|discriminate].
  - apply Forall_map, Forall_map. eapply Forall_impl; [exact Hm|].
    intros plane [Hw Hp]. cbn beta.
    destruct (plane_total_bounds plane H_f Hp) as [H0 H1]. rewrite Hw in H1.
    apply one_minus_fraction_unit; assumption.
Qed.

(** C1 (the coefficient of [train_HybridPartSwapping]). With [radius = 7] on
    a 7x7 stage map, [mix_ratio] is 64/49: above 1, so the weight
    [1 - mix_ratio] of the second label loss is negative. On the toy
    instance, a batch run with [radius = 2] on its 2x2 stage map weights the
    two losses of its mixed loss by 9/4 and by a negative number. *)
Theorem hps_mix_ratio_above_one :
  hps_mix_ratio 7 7 7 = Ok (64 # 49)%Q ∧
  (1 < 64 # 49)%Q ∧
  ∃ st lc pred target_b,
    hps_batch (E := Toy.engine) (Toy.kw (1 # 2) 2) 0 0
              ([Toy.img 1 2 3 4; Toy.img 0 0 0 0]%Q, [0; 1]%nat)
              (Toy.rng 3 0) (init_loop Toy.world0) = Ok (st, lc) ∧
    l_mix lc = Some (9 # 4)%Q ∧
    l_loss lc = Add (Scale (Crit pred [0; 1]%nat) (9 # 4)%Q)
                    (Scale (Crit pred target_b) (1 - (9 # 4))%Q) ∧
    (1 - (9 # 4) < 0)%Q.
Proof.
  split; [reflexivity|]. split; [reflexivity|].
  destruct (hps_batch (E := Toy.engine) (Toy.kw (1 # 2) 2) 0 0
              ([Toy.img 1 2 3 4; Toy.img 0 0 0 0]%Q, [0; 1]%nat)
              (Toy.rng 3 0) (init_loop Toy.world0)) as [[st lc]|e] eqn:Hrun.
  - exists st, lc.
    vm_compute in Hrun. injection Hrun as <- <-.
    eexists _, _. split; [reflexivity|]. split; [reflexivity|].
    split; reflexivity.
  - vm_compute in Hrun. discriminate Hrun.
Qed.

(** ** The driver *)

Lemma step_no_assertion s k :
  no_assertion s → (∀ e, no_assertion (k e)) → no_assertion (Driver.step s k).
Proof.
  destruct s as [e|evs f]; cbn; auto.
Qed.

Lemma run_epochs_no_assertion train_mode epochs e :
  no_assertion (Driver.run_epochs train_mode epochs e).
Proof.
  revert e. induction epochs as [|epoch rest IH]; intros e; cbn; [exact I|].
  apply step_no_assertion; [|exact IH].
  unfold Driver.run_epoch, Driver.dispatch, Driver.print_train_metrics,
    Driver.bind_epoch_train_loss.
  cbn. repeat (destruct (String.eqb _ _); cbn; try exact I).
  destruct (Driver.epoch_train_loss _); exact I.
Qed.

Lemma main_no_assertion args : no_assertion (Driver.main args).
Proof.
  unfold Driver.main.
  repeat (apply step_no_assertion; [| intros ?]); try exact I.
  - unfold Driver.build_dataloaders, Driver.bind_loaders.
    repeat (match goal with |- context [if ?c then _ else _] => destruct c end; cbn;
            try exact I).
  - unfold Driver.build_network, Driver.bind_model.
    repeat (match goal with |- context [if ?c then _ else _] => destruct c end; cbn;
            try exact I).
  - unfold Driver.select_stage_names, Driver.bind_stage_names.
    repeat (match goal with |- context [if ?c then _ else _] => destruct c end; cbn;
            try exact I).
  - unfold Driver.wrap_model.
    destruct (Driver.model _); [|exact I]. destruct (Driver.stage_names _); exact I.
  - apply run_epochs_no_assertion.
Qed.

(** C4 (what the script does on an unknown [train_mode]). The statement
    [assert 'Invalid training mode !'] tests a non-empty string and never
    fails: no run of the script ends in an AssertionError. With an unknown
    mode and one epoch, the first epoch starts and the run dies on the print
    of the unbound [epoch_train_loss]; with no epoch it finishes normally. *)
Theorem unknown_train_mode_not_rejected :
  (∀ args evs msg,
     Driver.main args ≠ Driver.Crashed evs (Driver.FAssertionError msg)) ∧
  Driver.main (Driver.mkArgs "resnet50" "cifar10" "foo" 1) =
    Driver.Crashed
      [Driver.LoadData "cifar10"; Driver.BuildNet "resnet50";
       Driver.Wrap ["layer1"; "layer2"; "layer3"; "layer4"];
       Driver.BuildOptimizer; Driver.EpochStart 0]
      (Driver.FNameError "epoch_train_loss") ∧
  Driver.main (Driver.mkArgs "resnet50" "cifar10" "foo" 0) =
    Driver.Running
      (Driver.mkEnv true true (Some ["layer1"; "layer2"; "layer3"; "layer4"]) false
         [Driver.LoadData "cifar10"; Driver.BuildNet "resnet50";
          Driver.Wrap ["layer1"; "layer2"; "layer3"; "layer4"];
          Driver.BuildOptimizer; Driver.Finished]).
Proof.
  split; [|split; reflexivity].
  intros args evs msg H. pose proof (main_no_assertion args) as Hn.
  rewrite H in Hn. exact Hn.
Qed.

(** ** The accuracy accumulators *)

Section Accumulators.
Context `{E : Engine}.

Ltac samples_tac H :=
  body_cbn H; repeat shape_destruct; res_inv; repeat shape_destruct; res_inv;
  reflexivity.

Lemma train_batch_samples cur_epoch idx data st st' lc :
  train_batch cur_epoch idx data st = Ok (st', lc) →
  train_n_samples st' = (train_n_samples st + size0 (snd data))%Z.
Proof.
  destruct data as [batch labels]. intros H. unfold train_batch in H.
  samples_tac H.
Qed.

Lemma hps_batch_samples kw cur_epoch idx data rnd st st' lc :
  hps_batch kw cur_epoch idx data rnd st = Ok (st', lc) →
  train_n_samples st' = (train_n_samples st + size0 (snd data))%Z.
Proof.
  destruct data as [batch labels]. intros H. unfold hps_batch in H.
  destruct (Qlt_bool _ _); samples_tac H.
Qed.

Lemma hcm_batch_samples kw cur_epoch idx data rnd hst hst' lc :
  hcm_batch kw cur_epoch idx data rnd hst = Ok (hst', lc) →
  train_n_samples (hcm_loop hst') =
  (train_n_samples (hcm_loop hst) + size0 (snd data))%Z.
Proof.
  destruct data as [batch labels]. intros H. unfold hcm_batch in H.
  destruct (Qlt_bool _ _); samples_tac H.
Qed.

Lemma cutmix_batch_samples kw cur_epoch idx data rnd st st' lc :
  cutmix_batch kw cur_epoch idx data rnd st = Ok (st', lc) →
  train_n_samples st' = (train_n_samples st + size0 (snd data))%Z.
Proof.
  destruct data as [batch labels]. intros H. unfold cutmix_batch in H.
  destruct (Qlt_bool _ _); [destruct (draw_bbox rnd) as [[[? ?] ?] ?]|];
    samples_tac H.
Qed.

Lemma total_samples_cons data rest :
  total_samples (data :: rest) = (size0 (snd data) + total_samples rest)%Z.
Proof. reflexivity. Qed.

Lemma train_loop_samples cur_epoch loader : ∀ idx st st',
  train_loop cur_epoch idx loader st = Ok st' →
  train_n_samples st' = (train_n_samples st + total_samples loader)%Z.
Proof.
  induction loader as [|data rest IH]; intros idx st st' H; cbn in H.
  - injection H as <-. cbn. lia.
  - apply bind_Ok in H as ([st1 lc] & Hb & H).
    apply train_batch_samples in Hb. apply IH in H. rewrite total_samples_cons. lia.
Qed.

Lemma hps_loop_samples kw cur_epoch rng loader : ∀ idx st st',
  hps_loop kw cur_epoch rng idx loader st = Ok st' →
  train_n_samples st' = (train_n_samples st + total_samples loader)%Z.
Proof.
  induction loader as [|data rest IH]; intros idx st st' H; cbn in H.
  - injection H as <-. cbn. lia.
  - apply bind_Ok in H as ([st1 lc] & Hb & H).
    apply hps_batch_samples in Hb. apply IH in H. rewrite total_samples_cons. lia.
Qed.

Lemma hcm_epoch_loop_samples kw cur_epoch rng loader : ∀ idx hst hst',
  hcm_epoch_loop kw cur_epoch rng idx loader hst = Ok hst' →
  train_n_samples (hcm_loop hst') =
  (train_n_samples (hcm_loop hst) + total_samples loader)%Z.
Proof.
  induction loader as [|data rest IH]; intros idx hst hst' H; cbn in H.
  - injection H as <-. cbn. lia.
  - apply bind_Ok in H as ([hst1 lc] & Hb & H).
    apply hcm_batch_samples in Hb. apply IH in H. rewrite total_samples_cons. lia.
Qed.

Lemma cutmix_loop_samples kw cur_epoch rng loader : ∀ idx st st',
  cutmix_loop kw cur_epoch rng idx loader st = Ok st' →
  train_n_samples st' = (train_n_samples st + total_samples loader)%Z.
Proof.
  induction loader as [|data rest IH]; intros idx st st' H; cbn in H.
  - injection H as <-. cbn. lia.
  - apply bind_Ok in H as ([st1 lc] & Hb & H).
    apply cutmix_batch_samples in Hb. apply IH in H. rewrite total_samples_cons. lia.
Qed.

Lemma finish_epoch_accuracy n st w loss acc :
  finish_epoch n st = Ok (w, loss, acc) →
  acc = np_div (train_n_corrects st) (train_n_samples st).
Proof.
  unfold finish_epoch. destruct (n =? 0)%nat; [discriminate|].
  intros [= _ _ <-]. reflexivity.
Qed.

(** C7. For every epoch of every training function, the returned accuracy is
    the accumulated count of correct predictions divided by the accumulated
    sample count, and the sample count is the sum of the batch sizes
    [labels.size(0)] over the batches of the epoch. *)
Theorem epoch_accuracy_is_corrects_over_samples
        (w : World) (loader : list (Tensor4 * list nat)) (cur_epoch : Z)
        (kw : Kwargs) (rng : nat → Draws) (w' : World) (loss : Q) (acc : npfloat) :
  (train w loader cur_epoch = Ok (w', loss, acc) →
   ∃ st, train_loop cur_epoch 0 loader (init_loop (set_training true w)) = Ok st ∧
         accuracy_of_accumulators loader acc st) ∧
  (train_HybridPartSwapping w loader cur_epoch kw rng = Ok (w', loss, acc) →
   ∃ st, hps_loop kw cur_epoch rng 0 loader (init_loop (set_training true w)) = Ok st ∧
         accuracy_of_accumulators loader acc st) ∧
  (train_HybridCutMix w loader cur_epoch kw rng = Ok (w', loss, acc) →
   ∃ hst, hcm_epoch_loop kw cur_epoch rng 0 loader
            (mkHcm (init_loop (set_training true w)) (radius kw)) = Ok hst ∧
          accuracy_of_accumulators loader acc (hcm_loop hst)) ∧
  (train_CutMix w loader cur_epoch kw rng = Ok (w', loss, acc) →
   ∃ st, cutmix_loop kw cur_epoch rng 0 loader (init_loop (set_training true w)) = Ok st ∧
         accuracy_of_accumulators loader acc st).
Proof.
  unfold train, train_HybridPartSwapping, train_HybridCutMix, train_CutMix,
    accuracy_of_accumulators.
  repeat split; intros H; apply bind_Ok in H as (st & Hloop & Hfin);
    exists st; (split; [exact Hloop|]);
    (split; [exact (finish_epoch_accuracy _ _ _ _ _ Hfin)|]).
  - apply train_loop_samples in Hloop. cbn in Hloop. lia.
  - apply hps_loop_samples in Hloop. cbn in Hloop. lia.
  - apply hcm_epoch_loop_samples in Hloop. cbn in Hloop. lia.
  - apply cutmix_loop_samples in Hloop. cbn in Hloop. lia.
Qed.

End Accumulators.

(** ** [cut_prob = 0]: the augmenting loops are the vanilla loop *)

Section ZeroCutProb.
Context `{E : Engine}.

Lemma never_below_zero (r cut : Q) :
  (cut == 0)%Q → (0 <= r)%Q → Qlt_bool r cut = false.
Proof.
  intros Hc Hr. unfold Qlt_bool.
  assert (Hle : Qle_bool cut r = true) by (apply Qle_bool_iff; rewrite Hc; exact Hr).
  rewrite Hle. reflexivity.
Qed.

Ltac same_loop_start st1 st2 Hs :=
  destruct st1 as [[m1 o1 s1 t1] l1 c1 n1], st2 as [[m2 o2 s2 t2] l2 c2 n2];
  destruct Hs as ((Hm & Ho & Hsc) & Hl & Hc & Hn); cbn in Hm, Ho, Hsc, Hl, Hc, Hn;
  subst m2 o2 s2 l2 c2 n2.

Ltac same_loop_finish :=
  unfold save_fig;
  repeat match goal with |- context [if ?c then _ else _] => destruct c end;
  cbn -[net_forward record_stages item count_correct pred_max_of];
  eexists _, _, _, _;
  (split; [reflexivity|]); (split; [reflexivity|]);
  (split; [repeat split|]); (split; repeat split).

Lemma hps_batch_unaugmented kw cur_epoch idx data rnd st1 st2 :
  Qlt_bool (draw_r rnd) (cut_prob kw) = false →
  same_loop st1 st2 →
  ∃ st1' lc1 st2' lc2,
    hps_batch kw cur_epoch idx data rnd st1 = Ok (st1', lc1) ∧
    train_batch cur_epoch idx data st2 = Ok (st2', lc2) ∧
    same_loop st1' st2' ∧ unmodified data lc1.
Proof.
  intros Hr Hs. destruct data as [batch labels]. same_loop_start st1 st2 Hs.
  unfold hps_batch, train_batch. rewrite Hr.
  cbn -[net_forward record_stages item count_correct pred_max_of Nat.modulo Z.modulo].
  same_loop_finish.
Qed.

Lemma hcm_batch_unaugmented kw cur_epoch idx data rnd hst1 st2 :
  Qlt_bool (draw_r rnd) (cut_prob kw) = false →
  same_loop (hcm_loop hst1) st2 →
  ∃ st1' lc1 st2' lc2,
    hcm_batch kw cur_epoch idx data rnd hst1
      = Ok (mkHcm st1' (final_radius hst1), lc1) ∧
    train_batch cur_epoch idx data st2 = Ok (st2', lc2) ∧
    same_loop st1' st2' ∧ unmodified data lc1.
Proof.
  intros Hr Hs. destruct data as [batch labels]. destruct hst1 as [st1 fr].
  cbn [hcm_loop] in Hs. same_loop_start st1 st2 Hs.
  unfold hcm_batch, train_batch. rewrite Hr.
  cbn -[net_forward record_stages item count_correct pred_max_of Nat.modulo Z.modulo].
  same_loop_finish.
Qed.

Lemma cutmix_batch_unaugmented kw cur_epoch idx data rnd st1 st2 :
  Qlt_bool (draw_r rnd) (cut_prob kw) = false →
  same_loop st1 st2 →
  ∃ st1' lc1 st2' lc2,
    cutmix_batch kw cur_epoch idx data rnd st1 = Ok (st1', lc1) ∧
    train_batch cur_epoch idx data st2 = Ok (st2', lc2) ∧
    same_loop st1' st2' ∧ unmodified data lc1.
Proof.
  intros Hr Hs. destruct data as [batch labels]. same_loop_start st1 st2 Hs.
  unfold cutmix_batch, train_batch. rewrite Hr.
  cbn -[net_forward record_stages item count_correct pred_max_of Nat.modulo Z.modulo].
  same_loop_finish.
Qed.

Lemma hps_loop_unaugmented kw cur_epoch rng loader :
  (∀ i, Qlt_bool (draw_r (rng i)) (cut_prob kw) = false) →
  ∀ idx st1 st2,
    same_loop st1 st2 →
    ∃ st1' st2',
      hps_loop kw cur_epoch rng idx loader st1 = Ok st1' ∧
      train_loop cur_epoch idx loader st2 = Ok st2' ∧
      same_loop st1' st2'.
Proof.
  intros Hr. induction loader as [|data rest IH]; intros idx st1 st2 Hs.
  - exists st1, st2. repeat split; try reflexivity; apply Hs.
  - destruct (hps_batch_unaugmented kw cur_epoch idx data (rng idx) st1 st2 (Hr idx) Hs)
      as (st1' & lc1 & st2' & lc2 & H1 & H2 & Hs' & _).
    destruct (IH (S idx) st1' st2' Hs') as (r1 & r2 & Hl1 & Hl2 & Hsr).
    exists r1, r2. cbn [hps_loop train_loop]. rewrite H1, H2. cbn.
    split; [exact Hl1|]. split; [exact Hl2|exact Hsr].
Qed.

Lemma hcm_epoch_loop_unaugmented kw cur_epoch rng loader :
  (∀ i, Qlt_bool (draw_r (rng i)) (cut_prob kw) = false) →
  ∀ idx hst1 st2,
    same_loop (hcm_loop hst1) st2 →
    ∃ st1' st2',
      hcm_epoch_loop kw cur_epoch rng idx loader hst1
        = Ok (mkHcm st1' (final_radius hst1)) ∧
      train_loop cur_epoch idx loader st2 = Ok st2' ∧
      same_loop st1' st2'.
Proof.
  intros Hr. induction loader as [|data rest IH]; intros idx hst1 st2 Hs.
  - exists (hcm_loop hst1), st2. destruct hst1. repeat split; try reflexivity; apply Hs.
  - destruct (hcm_batch_unaugmented kw cur_epoch idx data (rng idx) hst1 st2 (Hr idx) Hs)
      as (st1' & lc1 & st2' & lc2 & H1 & H2 & Hs' & _).
    destruct (IH (S idx) (mkHcm st1' (final_radius hst1)) st2' Hs')
      as (r1 & r2 & Hl1 & Hl2 & Hsr).
    exists r1, r2. cbn [hcm_epoch_loop train_loop]. rewrite H1, H2. cbn.
    split; [exact Hl1|]. split; [exact Hl2|exact Hsr].
Qed.

Lemma cutmix_loop_unaugmented kw cur_epoch rng loader :
  (∀ i, Qlt_bool (draw_r (rng i)) (cut_prob kw) = false) →
  ∀ idx st1 st2,
    same_loop st1 st2 →
    ∃ st1' st2',
      cutmix_loop kw cur_epoch rng idx loader st1 = Ok st1' ∧
      train_loop cur_epoch idx loader st2 = Ok st2' ∧
      same_loop st1' st2'.
Proof.
  intros Hr. induction loader as [|data rest IH]; intros idx st1 st2 Hs.
  - exists st1, st2. repeat split; try reflexivity; apply Hs.
  - destruct (cutmix_batch_unaugmented kw cur_epoch idx data (rng idx) st1 st2 (Hr idx) Hs)
      as (st1' & lc1 & st2' & lc2 & H1 & H2 & Hs' & _).
    destruct (IH (S idx) st1' st2' Hs') as (r1 & r2 & Hl1 & Hl2 & Hsr).
    exists r1, r2. cbn [cutmix_loop train_loop]. rewrite H1, H2. cbn.
    split; [exact Hl1|]. split; [exact Hl2|exact Hsr].
Qed.

Lemma same_loop_refl st : same_loop st st.
Proof. repeat split. Qed.

Lemma finish_epoch_same n st1 st2 :
  same_loop st1 st2 →
  outcome (finish_epoch n st1) = outcome (finish_epoch n st2).
Proof.
  intros Hs.
  destruct st1 as [[m1 o1 s1 t1] l1 c1 n1], st2 as [[m2 o2 s2 t2] l2 c2 n2].
  destruct Hs as ((Hm & Ho & Hsc) & Hl & Hc & Hn); cbn in Hm, Ho, Hsc, Hl, Hc, Hn.
  subst. unfold finish_epoch. destruct (n =? 0)%nat; reflexivity.
Qed.

(** C3. With [cut_prob = 0.0] every batch of [train_HybridPartSwapping],
    [train_HybridCutMix] and [train_CutMix] goes down the unmodified path,
    and the epoch leaves the model, the optimizer and the scheduler in the
    state the vanilla [train] leaves them in, with the same mean loss and
    accuracy. *)
Theorem zero_cut_prob_is_vanilla
        (w : World) (loader : list (Tensor4 * list nat)) (cur_epoch : Z)
        (kw : Kwargs) (rng : nat → Draws) :
  (cut_prob kw == 0)%Q →
  (∀ i, (0 <= draw_r (rng i))%Q) →
  (∀ idx data st hst,
     (∃ st' lc, hps_batch kw cur_epoch idx data (rng idx) st = Ok (st', lc) ∧
                unmodified data lc) ∧
     (∃ hst' lc, hcm_batch kw cur_epoch idx data (rng idx) hst = Ok (hst', lc) ∧
                 unmodified data lc) ∧
     (∃ st' lc, cutmix_batch kw cur_epoch idx data (rng idx) st = Ok (st', lc) ∧
                unmodified data lc)) ∧
  outcome (train_HybridPartSwapping w loader cur_epoch kw rng)
    = outcome (train w loader cur_epoch) ∧
  outcome (train_HybridCutMix w loader cur_epoch kw rng)
    = outcome (train w loader cur_epoch) ∧
  outcome (train_CutMix w loader cur_epoch kw rng)
    = outcome (train w loader cur_epoch).
Proof.
  intros Hcut Hrng.
  assert (Hr : ∀ i, Qlt_bool (draw_r (rng i)) (cut_prob kw) = false)
    by (intros i; apply never_below_zero; [exact Hcut|apply Hrng]).
  split; [|split; [|split]].
  - intros idx data st hst. split; [|split].
    + destruct (hps_batch_unaugmented kw cur_epoch idx data (rng idx) st st (Hr idx)
                  (same_loop_refl st)) as (st' & lc & _ & _ & H & _ & _ & Hu).
      eauto.
    + destruct (hcm_batch_unaugmented kw cur_epoch idx data (rng idx) hst (hcm_loop hst)
                  (Hr idx) (same_loop_refl _)) as (st' & lc & _ & _ & H & _ & _ & Hu).
      eauto.
    + destruct (cutmix_batch_unaugmented kw cur_epoch idx data (rng idx) st st (Hr idx)
                  (same_loop_refl st)) as (st' & lc & _ & _ & H & _ & _ & Hu).
      eauto.
  - unfold train_HybridPartSwapping, train.
    destruct (hps_loop_unaugmented kw cur_epoch rng loader Hr 0 _ _
                (same_loop_refl (init_loop (set_training true w))))
      as (r1 & r2 & H1 & H2 & Hs).
    rewrite H1, H2. cbn [mbind res_bind]. apply finish_epoch_same, Hs.
  - unfold train_HybridCutMix, train.
    destruct (hcm_epoch_loop_unaugmented kw cur_epoch rng loader Hr 0
                (mkHcm (init_loop (set_training true w)) (radius kw)) _
                (same_loop_refl (init_loop (set_training true w))))
      as (r1 & r2 & H1 & H2 & Hs).
    rewrite H1, H2. cbn [mbind res_bind hcm_loop]. apply finish_epoch_same, Hs.
  - unfold train_CutMix, train.
    destruct (cutmix_loop_unaugmented kw cur_epoch rng loader Hr 0 _ _
                (same_loop_refl (init_loop (set_training true w))))
      as (r1 & r2 & H1 & H2 & Hs).
    rewrite H1, H2. cbn [mbind res_bind]. apply finish_epoch_same, Hs.
Qed.

End ZeroCutProb.

(** ** Evaluation *)

Section Evaluation.
Context `{B : Backend}.

Lemma evaluation_frame_refl (w : World) : evaluation_frame w w.
Proof.
  repeat split. exists []. split; [symmetry; apply app_nil_r|constructor].
Qed.

Lemma evaluation_frame_trans (w1 w2 w3 : World) :
  evaluation_frame w1 w2 → evaluation_frame w2 w3 → evaluation_frame w1 w3.
Proof.
  intros (Hw & Hb & Hg & Ho & Hs & evs & Ht & Hp)
         (Hw' & Hb' & Hg' & Ho' & Hs' & evs' & Ht' & Hp').
  repeat split; try congruence.
  exists (evs ++ evs'). split.
  - rewrite Ht', Ht, app_assoc. reflexivity.
  - apply Forall_app. split; assumption.
Qed.

Lemma test_batch_frame save_path cur_epoch idx data st :
  training (model (world st)) = false →
  training (model (world (test_batch save_path cur_epoch idx data st))) = false ∧
  evaluation_frame (world st) (world (test_batch save_path cur_epoch idx data st)).
Proof.
  intros Hev. destruct data as [batch labels].
  destruct st as [[[ws bs tr gs sn ns da dg] o s t] l c n]. cbn in Hev. subst tr.
  unfold test_batch, save_fig, evaluation_frame.
  destruct (_ && _); cbn -[record_stages net_forward];
    (split; [reflexivity|]); repeat (split; [reflexivity|]);
    eexists; (split; [rewrite <- ?app_assoc; reflexivity|]);
    repeat constructor.
Qed.

Lemma test_loop_frame save_path cur_epoch loader : ∀ idx st,
  training (model (world st)) = false →
  evaluation_frame (world st) (world (test_loop save_path cur_epoch idx loader st)).
Proof.
  induction loader as [|data rest IH]; intros idx st Hev; cbn [test_loop].
  - apply evaluation_frame_refl.
  - destruct (test_batch_frame save_path cur_epoch idx data st Hev) as [Hev' Hf].
    eapply evaluation_frame_trans; [exact Hf|]. apply IH, Hev'.
Qed.

Lemma test_batch_same_net save_path cur_epoch idx data st1 st2 :
  same_net st1 st2 →
  same_net (test_batch save_path cur_epoch idx data st1)
           (test_batch save_path cur_epoch idx data st2).
Proof.
  destruct data as [batch labels].
  destruct st1 as [[[ws1 bs1 tr1 gs1 sn1 ns1 da1 dg1] o1 s1 t1] l1 c1 n1].
  destruct st2 as [[[ws2 bs2 tr2 gs2 sn2 ns2 da2 dg2] o2 s2 t2] l2 c2 n2].
  intros (H1 & H2 & Hw & Hb & Hl & Hc & Hn). cbn in H1, H2, Hw, Hb, Hl, Hc, Hn.
  subst. unfold test_batch, save_fig.
  destruct (_ && _); cbn; repeat split.
Qed.

Lemma test_loop_same_net save_path cur_epoch loader : ∀ idx st1 st2,
  same_net st1 st2 →
  same_net (test_loop save_path cur_epoch idx loader st1)
           (test_loop save_path cur_epoch idx loader st2).
Proof.
  induction loader as [|data rest IH]; intros idx st1 st2 Hs; cbn [test_loop].
  - exact Hs.
  - apply IH, test_batch_same_net, Hs.
Qed.

(** C8. [test] computes no gradient, calls neither the optimizer nor the
    scheduler and leaves the parameters of the model as they were; called a
    second time on the same data with the model it returned, it returns the
    same loss and the same accuracy. *)
Theorem test_is_repeatable
        (w : World) (loader : list (Tensor4 * list nat))
        (save_path : option string) (cur_epoch : Z) :
  loader ≠ [] →
  ∃ w' loss acc,
    test w loader save_path cur_epoch = Ok (w', loss, acc) ∧
    evaluation_frame w w' ∧
    ∃ w'', test w' loader save_path cur_epoch = Ok (w'', loss, acc).
Proof.
  intros Hne. unfold test.
  destruct (length loader =? 0)%nat eqn:Hlen.
  { apply Nat.eqb_eq in Hlen. destruct loader; [congruence|discriminate]. }
  set (st := test_loop save_path cur_epoch 0 loader (init_loop (set_training false w))).
  assert (Hf : evaluation_frame (set_training false w) (world st))
    by (apply test_loop_frame; reflexivity).
  eexists _, _, _. split; [reflexivity|]. split.
  - destruct Hf as (Hw & Hb & Hg & Ho & Hs & Hev). repeat split; assumption.
  - set (st2 := test_loop save_path cur_epoch 0 loader
                          (init_loop (set_training false (world st)))).
    assert (Hsame : same_net st st2).
    { apply test_loop_same_net.
      destruct Hf as (Hw & Hb & _). cbn in Hw, Hb |- *.
      repeat split; cbn; congruence. }
    destruct Hsame as (_ & _ & _ & _ & Hl & Hc & Hn).
    exists (world st2). rewrite Hl, Hc, Hn. reflexivity.
Qed.

End Evaluation.

(** ** The radius of train_HybridCutMix *)

Section Radius.
Context `{E : Engine}.

Lemma mask_radii_app (t1 t2 : list Event) :
  mask_radii (t1 ++ t2) = mask_radii t1 ++ mask_radii t2.
Proof. apply omap_app. Qed.

Lemma hcm_batch_radius_step kw cur_epoch idx data rnd hst hst' lc :
  hcm_batch kw cur_epoch idx data rnd hst = Ok (hst', lc) →
  radius_step kw rnd hst hst' lc.
Proof.
  destruct data as [batch labels]. intros H. unfold hcm_batch in H.
  unfold radius_step. destruct (Qlt_bool _ _).
  - body_cbn H. res_inv. repeat shape_destruct. res_inv.
    unfold save_fig. destruct (_ && _);
      cbn -[mask_radii hcm_radius_update record_stages net_forward];
      rewrite !mask_radii_app; cbn -[hcm_radius_update];
      rewrite ?app_nil_r; eauto 10.
  - body_cbn H. res_inv.
    unfold save_fig. destruct (_ && _);
      cbn -[mask_radii hcm_radius_update record_stages net_forward];
      rewrite !mask_radii_app; cbn -[hcm_radius_update];
      rewrite ?app_nil_r; eauto 10.
Qed.

Lemma hcm_epoch_loop_radius kw cur_epoch rng loader : ∀ idx hst hst',
  hcm_epoch_loop kw cur_epoch rng idx loader hst = Ok hst' →
  let n_stages := num_stages (model (world (hcm_loop hst))) in
  let draws := augmented_stage_draws kw rng idx (length loader) in
  num_stages (model (world (hcm_loop hst'))) = n_stages ∧
  final_radius hst' = foldl (hcm_radius_update n_stages) (final_radius hst) draws ∧
  mask_radii (trace (world (hcm_loop hst'))) =
    mask_radii (trace (world (hcm_loop hst)))
      ++ radius_run n_stages (final_radius hst) draws.
Proof.
  induction loader as [|data rest IH]; intros idx hst hst' H; cbn in H.
  - injection H as <-. cbn. rewrite app_nil_r. auto.
  - apply bind_Ok in H as ([hst1 lc] & Hb & H).
    apply hcm_batch_radius_step in Hb. apply IH in H.
    unfold radius_step in Hb. cbn zeta in H, Hb.
    destruct Hb as (Hns & Hb). destruct H as (Hns' & Hfr & Hmr).
    rewrite Hns in Hns', Hfr, Hmr.
    cbn [length augmented_stage_draws]. cbn zeta.
    destruct (Qlt_bool _ _).
    + destruct Hb as (Hr & _ & Hm). cbn [app foldl radius_run].
      rewrite <- Hr. split; [exact Hns'|]. split; [exact Hfr|].
      rewrite Hmr, Hm, <- app_assoc. reflexivity.
    + destruct Hb as (Hr & Hm). cbn [app]. rewrite <- Hr, <- Hm. auto.
Qed.


End Radius.

(** ** The theorems at work on the toy instance *)

Lemma blend_all_ones_all_zeros_witness :
  (∃ mixed,
     blend Toy.ones (fst Toy.data0) [1; 0]%nat = Ok mixed ∧
     (all4 (λ m, m == 1)%Q Toy.ones → teq4 mixed (fst Toy.data0)) ∧
     (all4 (λ m, m == 0)%Q Toy.ones →
      teq4 mixed [Toy.img 0 0 0 0; Toy.img 1 2 3 4]%Q)) ∧
  (∃ mixed,
     blend Toy.zeros (fst Toy.data0) [1; 0]%nat = Ok mixed ∧
     (all4 (λ m, m == 1)%Q Toy.zeros → teq4 mixed (fst Toy.data0)) ∧
     (all4 (λ m, m == 0)%Q Toy.zeros →
      teq4 mixed [Toy.img 0 0 0 0; Toy.img 1 2 3 4]%Q)).
Proof.
  split.
  - apply (blend_all_ones_all_zeros Toy.ones (fst Toy.data0) [1; 0]%nat
             [Toy.img 0 0 0 0; Toy.img 1 2 3 4]%Q); reflexivity.
  - apply (blend_all_ones_all_zeros Toy.zeros (fst Toy.data0) [1; 0]%nat
             [Toy.img 0 0 0 0; Toy.img 1 2 3 4]%Q); reflexivity.
Defined.


Lemma fine_grained_stage_skips_label_mixing_witness :
  match hps_batch (E := Toy.engine) (Toy.kw (1 # 2) 1) 0 0 Toy.data0 (Toy.rng 3 0)
                  (init_loop Toy.world0) with
  | Ok (st', lc) =>
      ∃ mix_ratio, l_mix lc = Some mix_ratio ∧
        fine_grained_policy (fst Toy.data0) (snd Toy.data0) (Toy.rng 3 0) (4 - 1)
                            mix_ratio (1 - mix_ratio)%Q lc
  | Raise _ => False
  end ∧
  match hcm_batch (E := Toy.engine) (Toy.kw (1 # 2) 4) 0 0 Toy.data0 (Toy.rng 1 0)
                  (mkHcm (init_loop Toy.world0) 4) with
  | Ok (hst', lc) =>
      ∃ occlusion_ratio, l_mix lc = Some occlusion_ratio ∧
        fine_grained_policy (fst Toy.data0) (snd Toy.data0) (Toy.rng 1 0) 1
                            (1 - occlusion_ratio)%Q occlusion_ratio lc
  | Raise _ => False
  end.
Proof.
  split.
  - destruct (hps_batch _ _ _ _ _ _) as [[st' lc]|e] eqn:H.
    + exact (proj1 (fine_grained_stage_skips_label_mixing (E := Toy.engine)
                      (Toy.kw (1 # 2) 1) 0 0 (fst Toy.data0) (snd Toy.data0)
                      (Toy.rng 3 0) eq_refl) _ _ _ H).
    + vm_compute in H. discriminate H.
  - destruct (hcm_batch _ _ _ _ _ _) as [[hst' lc]|e] eqn:H.
    + exact (proj2 (fine_grained_stage_skips_label_mixing (E := Toy.engine)
                      (Toy.kw (1 # 2) 4) 0 0 (fst Toy.data0) (snd Toy.data0)
                      (Toy.rng 1 0) eq_refl) _ _ _ H).
    + vm_compute in H. discriminate H.
Defined.

Lemma augmented_accuracy_uses_original_labels_witness :
  match hps_batch (E := Toy.engine) (Toy.kw (1 # 2) 1) 0 0 Toy.data0 (Toy.rng 3 0)
                  (init_loop Toy.world0) with
  | Ok (st', lc) =>
      counts_against_original (model Toy.world0) (snd Toy.data0) 0
                              (train_n_corrects st') lc
  | Raise _ => False
  end ∧
  match cutmix_batch (E := Toy.engine) (Toy.kw (1 # 2) 1) 0 0 Toy.data0 (Toy.rng 3 0)
                     (init_loop Toy.world0) with
  | Ok (st', lc) =>
      counts_against_original (model Toy.world0) (snd Toy.data0) 0
                              (train_n_corrects st') lc
  | Raise _ => False
  end.
Proof.
  split.
  - destruct (hps_batch _ _ _ _ _ _) as [[st' lc]|e] eqn:H.
    + exact (proj2 (proj1 (augmented_accuracy_uses_original_labels (E := Toy.engine)
                      (Toy.kw (1 # 2) 1) 0 0 (fst Toy.data0) (snd Toy.data0)
                      (Toy.rng 3 0) eq_refl) _ _ _ H)).
    + vm_compute in H. discriminate H.
  - destruct (cutmix_batch _ _ _ _ _ _) as [[st' lc]|e] eqn:H.
    + exact (proj2 (proj2 (proj2 (augmented_accuracy_uses_original_labels
                      (E := Toy.engine)
                      (Toy.kw (1 # 2) 1) 0 0 (fst Toy.data0) (snd Toy.data0)
                      (Toy.rng 3 0) eq_refl)) _ _ _ H)).
    + vm_compute in H. discriminate H.
Defined.

Lemma zero_cut_prob_is_vanilla_witness :
  outcome (train_HybridPartSwapping (E := Toy.engine) Toy.world0 Toy.loader 0
                                    (Toy.kw 0 1) (Toy.rng 3))
    = outcome (train (E := Toy.engine) Toy.world0 Toy.loader 0) ∧
  outcome (train_HybridCutMix (E := Toy.engine) Toy.world0 Toy.loader 0
                              (Toy.kw 0 1) (Toy.rng 3))
    = outcome (train (E := Toy.engine) Toy.world0 Toy.loader 0) ∧
  outcome (train_CutMix (E := Toy.engine) Toy.world0 Toy.loader 0
                        (Toy.kw 0 1) (Toy.rng 3))
    = outcome (train (E := Toy.engine) Toy.world0 Toy.loader 0).
Proof.
  apply (zero_cut_prob_is_vanilla (E := Toy.engine) Toy.world0 Toy.loader 0
                                  (Toy.kw 0 1) (Toy.rng 3)).
  - reflexivity.
  - intros i. unfold Qle. simpl. lia.
Defined.

Lemma epoch_accuracy_is_corrects_over_samples_witness :
  match train_HybridPartSwapping (E := Toy.engine) Toy.world0 Toy.loader 0
                                 (Toy.kw (1 # 2) 1) (Toy.rng 3) with
  | Ok (w', loss, acc) =>
      ∃ st, hps_loop (E := Toy.engine) (Toy.kw (1 # 2) 1) 0 (Toy.rng 3) 0 Toy.loader
                     (init_loop (set_training true Toy.world0)) = Ok st ∧
            accuracy_of_accumulators Toy.loader acc st
  | Raise _ => False
  end ∧
  match train (E := Toy.engine) Toy.world0 Toy.loader 0 with
  | Ok (w', loss, acc) =>
      ∃ st, train_loop (E := Toy.engine) 0 0 Toy.loader
                       (init_loop (set_training true Toy.world0)) = Ok st ∧
            accuracy_of_accumulators Toy.loader acc st
  | Raise _ => False
  end.
Proof.
  split.
  - destruct (train_HybridPartSwapping _ _ _ _ _) as [[[w' loss] acc]|e] eqn:H.
    + exact (proj1 (proj2 (epoch_accuracy_is_corrects_over_samples (E := Toy.engine)
                      Toy.world0 Toy.loader 0 (Toy.kw (1 # 2) 1) (Toy.rng 3)
                      w' loss acc)) H).
    + vm_compute in H. discriminate H.
  - destruct (train _ _ _) as [[[w' loss] acc]|e] eqn:H.
    + exact (proj1 (epoch_accuracy_is_corrects_over_samples (E := Toy.engine)
                      Toy.world0 Toy.loader 0 (Toy.kw (1 # 2) 1) (Toy.rng 3)
                      w' loss acc) H).
    + vm_compute in H. discriminate H.
Defined.

Lemma test_is_repeatable_witness :
  ∃ w' loss acc,
    test (B := Toy.backend) Toy.world0 Toy.loader None 0 = Ok (w', loss, acc) ∧
    evaluation_frame Toy.world0 w' ∧
    ∃ w'', test w' Toy.loader None 0 = Ok (w'', loss, acc).
Proof.
  apply (test_is_repeatable (B := Toy.backend) Toy.world0 Toy.loader None 0).
  unfold Toy.loader. discriminate.
Defined.


(** The same configured radius and the same stage draw on the second batch,
    a different draw on the first: the second batch hands another radius to
    the mask generator. *)
Lemma hcm_radius_depends_on_history :
  ∃ w1 l1 a1 w2 l2 a2,
    train_HybridCutMix (E := Toy.engine) Toy.world0 Toy.loader 0 (Toy.kw (1 # 2) 4)
                       (Toy.rng_of [1; 3]%Z) = Ok (w1, l1, a1) ∧
    train_HybridCutMix (E := Toy.engine) Toy.world0 Toy.loader 0 (Toy.kw (1 # 2) 4)
                       (Toy.rng_of [3; 3]%Z) = Ok (w2, l2, a2) ∧
    mask_radii (trace w1) = [3; 3]%Z ∧
    mask_radii (trace w2) = [4; 4]%Z.
Proof.
  destruct (train_HybridCutMix (E := Toy.engine) Toy.world0 Toy.loader 0
              (Toy.kw (1 # 2) 4) (Toy.rng_of [1; 3]%Z)) as [[[w1 l1] a1]|e] eqn:H1;
    [|vm_compute in H1; discriminate H1].
  destruct (train_HybridCutMix (E := Toy.engine) Toy.world0 Toy.loader 0
              (Toy.kw (1 # 2) 4) (Toy.rng_of [3; 3]%Z)) as [[[w2 l2] a2]|e] eqn:H2;
    [|vm_compute in H2; discriminate H2].
  exists w1, l1, a1, w2, l2, a2. split; [reflexivity|]. split; [reflexivity|].
  vm_compute in H1. injection H1 as <- _ _.
  vm_compute in H2. injection H2 as <- _ _.
  split; reflexivity.
Qed.

(** * Further properties of the loops *)

Section BatchEffect.
Context `{E : Engine}.

Lemma count_sched_steps_app (t1 t2 : list Event) :
  count_sched_steps (t1 ++ t2) = count_sched_steps t1 + count_sched_steps t2.
Proof.
  unfold count_sched_steps. rewrite List.filter_app, length_app. reflexivity.
Qed.

Ltac batch_effect_tac :=
  unfold batch_effect, save_fig;
  repeat match goal with |- context [if ?c then _ else _] => destruct c end;
  cbn -[record_stages net_forward item count_correct count_steps count_sched_steps
        pred_max_of];
  rewrite ?count_steps_app, ?count_sched_steps_app;
  cbn -[record_stages net_forward item count_correct pred_max_of];
  (split; [lia|]); (split; [lia|]); (split; [reflexivity|]);
  (split; [reflexivity|]); (split; [symmetry; apply surjective_pairing|]);
  (split; [reflexivity|]); split; reflexivity.

Lemma train_batch_effect cur_epoch idx batch labels st st' lc :
  train_batch cur_epoch idx (batch, labels) st = Ok (st', lc) →
  batch_effect labels st st' lc.
Proof.
  intros H. unfold train_batch in H. body_cbn H. res_inv. batch_effect_tac.
Qed.

Lemma hps_batch_effect kw cur_epoch idx batch labels rnd st st' lc :
  hps_batch kw cur_epoch idx (batch, labels) rnd st = Ok (st', lc) →
  batch_effect labels st st' lc.
Proof.
  intros H. unfold hps_batch in H. destruct (Qlt_bool _ _);
    body_cbn H; res_inv; repeat shape_destruct; res_inv; batch_effect_tac.
Qed.

Lemma hcm_batch_effect kw cur_epoch idx batch labels rnd hst hst' lc :
  hcm_batch kw cur_epoch idx (batch, labels) rnd hst = Ok (hst', lc) →
  batch_effect labels (hcm_loop hst) (hcm_loop hst') lc.
Proof.
  intros H. unfold hcm_batch in H. destruct (Qlt_bool _ _);
    body_cbn H; res_inv; repeat shape_destruct; res_inv; batch_effect_tac.
Qed.

Lemma cutmix_batch_effect kw cur_epoch idx batch labels rnd st st' lc :
  cutmix_batch kw cur_epoch idx (batch, labels) rnd st = Ok (st', lc) →
  batch_effect labels st st' lc.
Proof.
  intros H. unfold cutmix_batch in H.
  destruct (Qlt_bool _ _); [destruct (draw_bbox rnd) as [[[? ?] ?] ?]|];
    body_cbn H; res_inv; repeat shape_destruct; res_inv; batch_effect_tac.
Qed.

(** Every batch of every training loop, augmented or not, ends in exactly
    one optimizer step that applies the gradient of the final loss of the
    batch alone (whatever [.grad] held before), and adds that loss, the
    correct predictions against the original labels and the batch size to
    the accumulators. *)
Theorem every_batch_is_one_sgd_step
        (kw : Kwargs) (cur_epoch : Z) (idx : nat) (batch : Tensor4)
        (labels : list nat) (rnd : Draws) :
  (∀ st st' lc,
     train_batch cur_epoch idx (batch, labels) st = Ok (st', lc) →
     batch_effect labels st st' lc) ∧
  (∀ st st' lc,
     hps_batch kw cur_epoch idx (batch, labels) rnd st = Ok (st', lc) →
     batch_effect labels st st' lc) ∧
  (∀ hst hst' lc,
     hcm_batch kw cur_epoch idx (batch, labels) rnd hst = Ok (hst', lc) →
     batch_effect labels (hcm_loop hst) (hcm_loop hst') lc) ∧
  (∀ st st' lc,
     cutmix_batch kw cur_epoch idx (batch, labels) rnd st = Ok (st', lc) →
     batch_effect labels st st' lc).
Proof.
  split; [|split; [|split]]; intros s1 s2 lc0 Hb.
  - exact (train_batch_effect _ _ _ _ _ _ _ Hb).
  - exact (hps_batch_effect _ _ _ _ _ _ _ _ _ Hb).
  - exact (hcm_batch_effect _ _ _ _ _ _ _ _ _ Hb).
  - exact (cutmix_batch_effect _ _ _ _ _ _ _ _ _ Hb).
Qed.

Lemma count_correct_bounds (pred_max labels : list nat) :
  (0 <= count_correct pred_max labels)%Z ∧
  (count_correct pred_max labels <= size0 labels)%Z.
Proof.
  unfold count_correct, size0. split; [lia|].
  apply inj_le.
  etransitivity; [apply length_filter|].
  rewrite length_zip. lia.
Qed.

(** What a loop keeps from its first state to its last. *)
Lemma batch_effect_loop_step labels st st1 lc (n : nat) st' :
  batch_effect labels st st1 lc →
  count_steps (trace (world st')) = count_steps (trace (world st1)) + n ∧
  count_sched_steps (trace (world st')) = count_sched_steps (trace (world st1)) ∧
  (0 <= train_n_corrects st' - train_n_corrects st1
   <= train_n_samples st' - train_n_samples st1)%Z →
  count_steps (trace (world st')) = count_steps (trace (world st)) + S n ∧
  count_sched_steps (trace (world st')) = count_sched_steps (trace (world st)) ∧
  (0 <= train_n_corrects st' - train_n_corrects st
   <= train_n_samples st' - train_n_samples st)%Z.
Proof.
  intros (Hs & Hsc & _ & _ & _ & _ & Hc & Hn) (Hs' & Hsc' & Hb).
  destruct (count_correct_bounds (l_pred_max lc) labels).
  cbn zeta in *. repeat split; lia.
Qed.

Lemma train_loop_effect cur_epoch loader : ∀ idx st st',
  train_loop cur_epoch idx loader st = Ok st' →
  count_steps (trace (world st')) = count_steps (trace (world st)) + length loader ∧
  count_sched_steps (trace (world st')) = count_sched_steps (trace (world st)) ∧
  (0 <= train_n_corrects st' - train_n_corrects st
   <= train_n_samples st' - train_n_samples st)%Z.
Proof.
  induction loader as [|[batch labels] rest IH]; intros idx st st' H;
    cbn [train_loop hps_loop cutmix_loop] in H.
  - injection H as <-. cbn. lia.
  - apply bind_Ok in H as ([st1 lc] & Hb & H).
    apply train_batch_effect in Hb. apply IH in H.
    exact (batch_effect_loop_step _ _ _ _ _ _ Hb H).
Qed.

Lemma hps_loop_effect kw cur_epoch rng loader : ∀ idx st st',
  hps_loop kw cur_epoch rng idx loader st = Ok st' →
  count_steps (trace (world st')) = count_steps (trace (world st)) + length loader ∧
  count_sched_steps (trace (world st')) = count_sched_steps (trace (world st)) ∧
  (0 <= train_n_corrects st' - train_n_corrects st
   <= train_n_samples st' - train_n_samples st)%Z.
Proof.
  induction loader as [|[batch labels] rest IH]; intros idx st st' H;
    cbn [train_loop hps_loop cutmix_loop] in H.
  - injection H as <-. cbn. lia.
  - apply bind_Ok in H as ([st1 lc] & Hb & H).
    apply hps_batch_effect in Hb. apply IH in H.
    exact (batch_effect_loop_step _ _ _ _ _ _ Hb H).
Qed.

Lemma hcm_epoch_loop_effect kw cur_epoch rng loader : ∀ idx hst hst',
  hcm_epoch_loop kw cur_epoch rng idx loader hst = Ok hst' →
  count_steps (trace (world (hcm_loop hst')))
    = count_steps (trace (world (hcm_loop hst))) + length loader ∧
  count_sched_steps (trace (world (hcm_loop hst')))
    = count_sched_steps (trace (world (hcm_loop hst))) ∧
  (0 <= train_n_corrects (hcm_loop hst') - train_n_corrects (hcm_loop hst)
   <= train_n_samples (hcm_loop hst') - train_n_samples (hcm_loop hst))%Z.
Proof.
  induction loader as [|[batch labels] rest IH]; intros idx hst hst' H;
    cbn [hcm_epoch_loop] in H.
  - injection H as <-. cbn. lia.
  - apply bind_Ok in H as ([hst1 lc] & Hb & H).
    apply hcm_batch_effect in Hb. apply IH in H.
    exact (batch_effect_loop_step _ _ _ _ _ _ Hb H).
Qed.

Lemma cutmix_loop_effect kw cur_epoch rng loader : ∀ idx st st',
  cutmix_loop kw cur_epoch rng idx loader st = Ok st' →
  count_steps (trace (world st')) = count_steps (trace (world st)) + length loader ∧
  count_sched_steps (trace (world st')) = count_sched_steps (trace (world st)) ∧
  (0 <= train_n_corrects st' - train_n_corrects st
   <= train_n_samples st' - train_n_samples st)%Z.
Proof.
  induction loader as [|[batch labels] rest IH]; intros idx st st' H;
    cbn [train_loop hps_loop cutmix_loop] in H.
  - injection H as <-. cbn. lia.
  - apply bind_Ok in H as ([st1 lc] & Hb & H).
    apply cutmix_batch_effect in Hb. apply IH in H.
    exact (batch_effect_loop_step _ _ _ _ _ _ Hb H).
Qed.

Lemma finish_epoch_calls n st w0 w' loss acc :
  finish_epoch n st = Ok (w', loss, acc) →
  trace w0 = trace (set_training true w0) →
  count_steps (trace (world st)) = count_steps (trace w0) + n →
  count_sched_steps (trace (world st)) = count_sched_steps (trace w0) →
  epoch_calls n w0 w'.
Proof.
  unfold finish_epoch. destruct (n =? 0)%nat; [discriminate|].
  intros [= <- _ _] _ Hs Hsc. unfold epoch_calls, scheduler_step.
  cbn -[count_steps count_sched_steps last].
  rewrite count_steps_app, count_sched_steps_app, last_snoc. cbn.
  repeat split; lia.
Qed.

(** In one epoch, every training function calls [optimizer.step()] once per
    batch and [scheduler.step()] exactly once, as its last call on the
    collaborators. *)
Theorem one_step_per_batch_one_scheduler_step_per_epoch
        (w : World) (loader : list (Tensor4 * list nat)) (cur_epoch : Z)
        (kw : Kwargs) (rng : nat → Draws) (w' : World) (loss : Q) (acc : npfloat) :
  (train w loader cur_epoch = Ok (w', loss, acc) →
   epoch_calls (length loader) w w') ∧
  (train_HybridPartSwapping w loader cur_epoch kw rng = Ok (w', loss, acc) →
   epoch_calls (length loader) w w') ∧
  (train_HybridCutMix w loader cur_epoch kw rng = Ok (w', loss, acc) →
   epoch_calls (length loader) w w') ∧
  (train_CutMix w loader cur_epoch kw rng = Ok (w', loss, acc) →
   epoch_calls (length loader) w w').
Proof.
  unfold train, train_HybridPartSwapping, train_HybridCutMix, train_CutMix.
  split; [|split; [|split]]; intros Hrun;
    apply bind_Ok in Hrun as (st & Hloop & Hfin).
  - apply train_loop_effect in Hloop as (Hs & Hsc & _).
    exact (finish_epoch_calls _ _ w _ _ _ Hfin eq_refl Hs Hsc).
  - apply hps_loop_effect in Hloop as (Hs & Hsc & _).
    exact (finish_epoch_calls _ _ w _ _ _ Hfin eq_refl Hs Hsc).
  - apply hcm_epoch_loop_effect in Hloop as (Hs & Hsc & _).
    exact (finish_epoch_calls _ _ w _ _ _ Hfin eq_refl Hs Hsc).
  - apply cutmix_loop_effect in Hloop as (Hs & Hsc & _).
    exact (finish_epoch_calls _ _ w _ _ _ Hfin eq_refl Hs Hsc).
Qed.



End BatchEffect.

(** ** What [test] returns *)

Section EvaluationValue.
Context `{B : Backend}.




End EvaluationValue.

(** ** The further properties at work on the toy instance *)

Lemma every_batch_is_one_sgd_step_witness :
  match hps_batch (E := Toy.engine) (Toy.kw (1 # 2) 1) 0 0 Toy.data0 (Toy.rng 3 0)
                  (init_loop Toy.world0) with
  | Ok (st', lc) => batch_effect (E := Toy.engine) (snd Toy.data0)
                                 (init_loop Toy.world0) st' lc
  | Raise _ => False
  end ∧
  match train_batch (E := Toy.engine) 0 0 Toy.data0 (init_loop Toy.world0) with
  | Ok (st', lc) => batch_effect (E := Toy.engine) (snd Toy.data0)
                                 (init_loop Toy.world0) st' lc
  | Raise _ => False
  end.
Proof.
  split.
  - destruct (hps_batch _ _ _ _ _ _) as [[st' lc]|e] eqn:Hrun.
    + exact (proj1 (proj2 (every_batch_is_one_sgd_step (E := Toy.engine)
                      (Toy.kw (1 # 2) 1) 0 0 (fst Toy.data0) (snd Toy.data0)
                      (Toy.rng 3 0))) _ _ _ Hrun).
    + vm_compute in Hrun. discriminate Hrun.
  - destruct (train_batch _ _ _ _) as [[st' lc]|e] eqn:Hrun.
    + exact (proj1 (every_batch_is_one_sgd_step (E := Toy.engine)
                      (Toy.kw (1 # 2) 1) 0 0 (fst Toy.data0) (snd Toy.data0)
                      (Toy.rng 3 0)) _ _ _ Hrun).
    + vm_compute in Hrun. discriminate Hrun.
Defined.

Lemma one_step_per_batch_one_scheduler_step_per_epoch_witness :
  match train_HybridCutMix (E := Toy.engine) Toy.world0 Toy.loader 0
                           (Toy.kw (1 # 2) 4) (Toy.rng_of [1; 3]%Z) with
  | Ok (w', loss, acc) => epoch_calls 2 Toy.world0 w'
  | Raise _ => False
  end.
Proof.
  destruct (train_HybridCutMix _ _ _ _ _) as [[[w' loss] acc]|e] eqn:Hrun.
  - exact (proj1 (proj2 (proj2 (one_step_per_batch_one_scheduler_step_per_epoch
                    (E := Toy.engine) Toy.world0 Toy.loader 0 (Toy.kw (1 # 2) 4)
                    (Toy.rng_of [1; 3]%Z) w' loss acc))) Hrun).
  - vm_compute in Hrun. discriminate Hrun.
Defined.



(** ** A radius that has reached zero *)

Section RadiusZero.
Context `{E : Engine}.

Lemma hcm_radius_update_zero (n_stages i : Z) : hcm_radius_update n_stages 0 i = 0%Z.
Proof.
  unfold hcm_radius_update. destruct (i <? 3)%Z; reflexivity.
Qed.

Lemma hcm_radius_update_small (n_stages r i : Z) :
  (i < 3)%Z → (0 <= r * (n_stages - i) < 4)%Z → hcm_radius_update n_stages r i = 0%Z.
Proof.
  intros Hi Hr. unfold hcm_radius_update.
  apply Z.ltb_lt in Hi. rewrite Hi. apply Z.div_small. exact Hr.
Qed.

Lemma radius_run_zero (n_stages : Z) (draws : list Z) :
  foldl (hcm_radius_update n_stages) 0%Z draws = 0%Z ∧
  Forall (λ r, r = 0%Z) (radius_run n_stages 0 draws).
Proof.
  induction draws as [|d ds [IH1 IH2]]; cbn [foldl radius_run].
  - split; [reflexivity|constructor].
  - rewrite hcm_radius_update_zero. split; [exact IH1|].
    constructor; [reflexivity|exact IH2].
Qed.

(** In [train_HybridCutMix] the radius is only ever multiplied and
    floor-divided: from a radius of 0 every later batch of the epoch leaves
    it at 0, and every call on the mask generator gets the radius 0. *)
Theorem final_radius_zero_is_absorbing
        (kw : Kwargs) (cur_epoch : Z) (rng : nat → Draws) (idx : nat)
        (loader : list (Tensor4 * list nat)) (hst hst' : HcmState) :
  final_radius hst = 0%Z →
  hcm_epoch_loop kw cur_epoch rng idx loader hst = Ok hst' →
  final_radius hst' = 0%Z ∧
  ∃ radii, mask_radii (trace (world (hcm_loop hst')))
             = mask_radii (trace (world (hcm_loop hst))) ++ radii ∧
           Forall (λ r, r = 0%Z) radii.
Proof.
  intros Hz Hrun.
  destruct (hcm_epoch_loop_radius _ _ _ _ _ _ _ Hrun) as (_ & Hfr & Hmr).
  cbn zeta in Hfr, Hmr. rewrite Hz in Hfr, Hmr.
  destruct (radius_run_zero (num_stages (model (world (hcm_loop hst))))
              (augmented_stage_draws kw rng idx (length loader))) as [H1 H2].
  split; [congruence|]. eexists. split; [exact Hmr|exact H2].
Qed.

End RadiusZero.

Lemma final_radius_zero_is_absorbing_witness :
  match hcm_epoch_loop (E := Toy.engine) (Toy.kw (1 # 2) 0) 0 (Toy.rng_of [1; 3]%Z) 0
                       Toy.loader (mkHcm (init_loop Toy.world0) 0) with
  | Ok hst' =>
      final_radius hst' = 0%Z ∧
      ∃ radii, mask_radii (trace (world (hcm_loop hst'))) = [] ++ radii ∧
               Forall (λ r, r = 0%Z) radii
  | Raise _ => False
  end.
Proof.
  destruct (hcm_epoch_loop _ _ _ _ _ _) as [hst'|e] eqn:Hrun.
  - exact (final_radius_zero_is_absorbing (E := Toy.engine) (Toy.kw (1 # 2) 0) 0
             (Toy.rng_of [1; 3]%Z) 0 Toy.loader (mkHcm (init_loop Toy.world0) 0)
             hst' eq_refl Hrun).
  - vm_compute in Hrun. discriminate Hrun.
Defined.

(** ** The runs of the driver *)

Lemma run_epochs_supported (m : string) (epochs : list nat) (e : Driver.Env) :
  supported_mode m = true →
  Driver.run_epochs m epochs e =
  Driver.Running
    (Driver.mkEnv (Driver.loaders e) (Driver.model e) (Driver.stage_names e)
                  (match epochs with [] => Driver.epoch_train_loss e | _ => true end)
                  (Driver.events e ++ flat_map (epoch_events m) epochs)).
Proof.
  intros Hm. revert e. induction epochs as [|k rest IH]; intros e.
  - cbn. rewrite app_nil_r. destruct e; reflexivity.
  - cbn [Driver.run_epochs].
    assert (Hk : Driver.run_epoch m k e =
                 Driver.Running
                   (Driver.mkEnv (Driver.loaders e) (Driver.model e)
                                 (Driver.stage_names e) true
                                 (Driver.events e ++ epoch_events m k))).
    { unfold supported_mode in Hm.
      unfold Driver.run_epoch, Driver.dispatch, Driver.bind_epoch_train_loss,
        Driver.print_train_metrics, Driver.emit, epoch_events.
      destruct (String.eqb_spec m "vanilla") as [->|_];
        [cbn; rewrite <- !app_assoc; reflexivity|].
      destruct (String.eqb_spec m "cutmix") as [->|_];
        [cbn; rewrite <- !app_assoc; reflexivity|].
      destruct (String.eqb_spec m "hybrid") as [->|_];
        [cbn; rewrite <- !app_assoc; reflexivity|].
      discriminate Hm. }
    rewrite Hk. cbn [Driver.step]. rewrite IH. cbn.
    rewrite <- app_assoc. destruct rest; reflexivity.
Qed.

Lemma run_epochs_unsupported (m : string) (k : nat) (rest : list nat) (e : Driver.Env) :
  supported_mode m = false →
  Driver.epoch_train_loss e = false →
  Driver.run_epochs m (k :: rest) e =
  Driver.Crashed (Driver.events e ++ [Driver.EpochStart k])
                 (Driver.FNameError "epoch_train_loss").
Proof.
  intros Hm He. unfold supported_mode in Hm.
  apply orb_false_elim in Hm as [Hm H3]. apply orb_false_elim in Hm as [H1 H2].
  cbn [Driver.run_epochs].
  unfold Driver.run_epoch, Driver.dispatch, Driver.print_train_metrics, Driver.emit.
  rewrite H1, H2, H3. cbn. rewrite He. reflexivity.
Qed.

Lemma setup_supported (d n : string) (K : Driver.Env → Driver.status) :
  supported_data d = true →
  supported_net n = true →
  Driver.step (Driver.build_dataloaders d env0) (λ e,
  Driver.step (Driver.build_network n d e) (λ e,
  Driver.step (Driver.select_stage_names n e) (λ e,
  Driver.step (Driver.wrap_model e) (λ e,
  Driver.step (Driver.Running (Driver.emit Driver.BuildOptimizer e)) K))))
  = K (Driver.mkEnv true true (Some (stage_names_of n)) false (setup_events d n)).
Proof.
  unfold supported_data, supported_net. intros Hd Hn.
  destruct (String.eqb_spec n "resnet50") as [->|_];
    [|destruct (String.eqb_spec n "mobilenetv2") as [->|_];
      [|destruct (String.eqb_spec n "vgg16") as [->|_]; [|discriminate Hn]]];
  (destruct (String.eqb_spec d "mosquitodl") as [->|_]; [reflexivity|];
   destruct (String.eqb_spec d "ip102") as [->|_]; [reflexivity|];
   destruct (String.eqb_spec d "cifar10") as [->|_]; [reflexivity|];
   destruct (String.eqb_spec d "cifar100") as [->|_]; [reflexivity|];
   destruct (String.eqb_spec d "imagenet") as [->|_]; [reflexivity|];
   destruct (String.eqb_spec d "cub200") as [->|_]; [reflexivity|];
   discriminate Hd).
Qed.

(** With a supported dataset and network, the script runs exactly
    [num_epochs] epochs (none for a non-positive number), each one a training
    epoch of the chosen strategy, an evaluation and a log write, in this
    order, and then finishes; with an unknown strategy it finishes only when
    there is no epoch to run, and dies on the first one otherwise. *)
Theorem supported_run_is_num_epochs_epochs (args : Driver.Args) :
  let d := Driver.lower (Driver.data_type args) in
  let n := Driver.lower (Driver.net_type args) in
  let m := Driver.lower (Driver.train_mode args) in
  let epochs := seq 0 (Z.to_nat (Driver.num_epochs args)) in
  supported_data d = true →
  supported_net n = true →
  (supported_mode m = true →
   Driver.main args =
   Driver.Running
     (Driver.mkEnv true true (Some (stage_names_of n))
                   (match epochs with [] => false | _ => true end)
                   (setup_events d n ++ flat_map (epoch_events m) epochs
                      ++ [Driver.Finished]))) ∧
  (supported_mode m = false →
   Driver.main args =
   match epochs with
   | [] => Driver.Running
             (Driver.mkEnv true true (Some (stage_names_of n)) false
                           (setup_events d n ++ [Driver.Finished]))
   | k :: _ => Driver.Crashed (setup_events d n ++ [Driver.EpochStart k])
                              (Driver.FNameError "epoch_train_loss")
   end).
Proof.
  intros d n m epochs Hd Hn. unfold Driver.main. fold d n m epochs. fold env0.
  rewrite (setup_supported d n _ Hd Hn). split; intros Hm.
  - rewrite (run_epochs_supported m epochs _ Hm).
    unfold Driver.emit. cbn -[setup_events flat_map app].
    rewrite <- app_assoc. reflexivity.
  - destruct epochs as [|k rest].
    + reflexivity.
    + rewrite (run_epochs_unsupported m k rest
                 (Driver.mkEnv true true (Some (stage_names_of n)) false
                               (setup_events d n)) Hm eq_refl).
      reflexivity.
Qed.




Lemma supported_run_is_num_epochs_epochs_witness :
  Driver.main (Driver.mkArgs "ResNet50" "CIFAR10" "Hybrid" 2) =
  Driver.Running
    (Driver.mkEnv true true (Some ["layer1"; "layer2"; "layer3"; "layer4"]) true
       (setup_events "cifar10" "resnet50"
          ++ flat_map (epoch_events "hybrid") [0; 1] ++ [Driver.Finished])) ∧
  Driver.main (Driver.mkArgs "vgg16" "cub200" "mixup" 3) =
  Driver.Crashed (setup_events "cub200" "vgg16" ++ [Driver.EpochStart 0])
                 (Driver.FNameError "epoch_train_loss").
Proof.
  split.
  - apply (supported_run_is_num_epochs_epochs
             (Driver.mkArgs "ResNet50" "CIFAR10" "Hybrid" 2)); reflexivity.
  - apply (supported_run_is_num_epochs_epochs
             (Driver.mkArgs "vgg16" "cub200" "mixup" 3)); reflexivity.
Defined.


(** ** Selection by a tensor of indices *)

Lemma py_index_nat {A} (l : list A) (i : nat) :
  py_index l (Z.of_nat i) =
  match l !! i with
  | Some x => Ok x
  | None => Raise IndexError
  end.
Proof.
  unfold py_index.
  destruct (Z.of_nat i <? 0)%Z eqn:Hneg; [apply Z.ltb_lt in Hneg; lia|].
  rewrite Hneg, Nat2Z.id. reflexivity.
Qed.

Lemma index_select_in_range {A} (l : list A) (idxs : list nat) :
  Forall (λ i, i < length l) idxs →
  ∃ r, index_select l idxs = Ok r ∧
       length r = length idxs ∧
       ∀ k i, idxs !! k = Some i → r !! k = l !! i.
Proof.
  induction 1 as [|i idxs Hi _ (r & Hr & Hlen & Hget)].
  - exists []. repeat split. intros k i Hk. destruct k; discriminate Hk.
  - destruct (lookup_lt_is_Some_2 l i Hi) as [x Hx].
    exists (x :: r). cbn [index_select]. rewrite py_index_nat, Hx, Hr.
    split; [reflexivity|]. split; [cbn; congruence|].
    intros [|k] j Hk; cbn in Hk |- *.
    + injection Hk as <-. symmetry. exact Hx.
    + apply Hget, Hk.
Qed.

Lemma index_select_out_of_range {A} (l : list A) (idxs : list nat) :
  ¬ Forall (λ i, i < length l) idxs →
  index_select l idxs = Raise IndexError.
Proof.
  induction idxs as [|i idxs IH]; intros Hno.
  - exfalso. apply Hno. constructor.
  - cbn [index_select]. rewrite py_index_nat.
    destruct (l !! i) as [x|] eqn:Hx; [|reflexivity].
    cbn. rewrite IH; [reflexivity|].
    intros Hall. apply Hno. constructor; [|exact Hall].
    apply lookup_lt_Some in Hx. exact Hx.
Qed.

Lemma index_select_identity {A} (l : list A) :
  index_select l (seq 0 (length l)) = Ok l.
Proof.
  assert (H : ∀ pre suf : list A,
            index_select (pre ++ suf) (seq (length pre) (length suf)) = Ok suf).
  { intros pre suf. revert pre. induction suf as [|x suf IH]; intros pre.
    - reflexivity.
    - cbn [length seq index_select]. rewrite py_index_nat.
      rewrite lookup_app_r by lia. rewrite Nat.sub_diag. cbn.
      specialize (IH (pre ++ [x])). rewrite <- app_assoc in IH. cbn in IH.
      rewrite length_app in IH. cbn in IH.
      replace (length pre + 1) with (S (length pre)) in IH by lia.
      rewrite IH. reflexivity. }
  exact (H [] l).
Qed.

(** [t[rand_index]] raises an IndexError exactly when some index is out of
    range; otherwise entry [k] of the result is entry [rand_index[k]] of [t],
    and selecting by [0, 1, ..., N-1] gives [t] back. *)
Theorem index_select_reads_the_indexed_entries {A} (l : list A) (idxs : list nat) :
  (Forall (λ i, i < length l) idxs →
   ∃ r, index_select l idxs = Ok r ∧
        length r = length idxs ∧
        ∀ k i, idxs !! k = Some i → r !! k = l !! i) ∧
  (¬ Forall (λ i, i < length l) idxs → index_select l idxs = Raise IndexError) ∧
  index_select l (seq 0 (length l)) = Ok l.
Proof.
  split; [apply index_select_in_range|].
  split; [apply index_select_out_of_range|apply index_select_identity].
Qed.

Lemma index_select_reads_the_indexed_entries_witness :
  (∃ r, index_select [10; 20; 30]%nat [2; 0; 1]%nat = Ok r ∧
        length r = 3 ∧
        ∀ k i, [2; 0; 1]%nat !! k = Some i → r !! k = [10; 20; 30]%nat !! i) ∧
  index_select [10; 20; 30]%nat [0; 3]%nat = Raise IndexError.
Proof.
  split.
  - apply (proj1 (index_select_reads_the_indexed_entries [10; 20; 30]%nat [2; 0; 1]%nat)).
    repeat constructor.
  - apply (proj1 (proj2 (index_select_reads_the_indexed_entries
                           [10; 20; 30]%nat [0; 3]%nat))).
    intros Hall. inversion Hall as [|? ? _ Hrest]; subst.
    inversion Hrest as [|? ? Hbad _]; subst. cbn in Hbad. lia.
Defined.

(** ** The bookkeeping of the driver *)

Section BookkeepingFacts.
Context {StateDict : Type}.
Abbreviation EpochResult := (@Bookkeeping.EpochResult StateDict).
Abbreviation Book := (@Bookkeeping.Book StateDict).

Lemma record_epochs_snoc (rs : list EpochResult) r epoch (b : Book) :
  Bookkeeping.record_epochs epoch (rs ++ [r]) b =
  Bookkeeping.record_epoch (epoch + length rs) r (Bookkeeping.record_epochs epoch rs b).
Proof.
  revert epoch b. induction rs as [|r0 rs IH]; intros epoch b; cbn.
  - rewrite Nat.add_0_r. reflexivity.
  - rewrite IH. f_equal. lia.
Qed.

Lemma np_gt_true (a b : npfloat) :
  Bookkeeping.np_gt a b = true →
  ∃ x y, a = Fin x ∧ b = Fin y ∧ (y < x)%Q.
Proof.
  destruct a as [x|], b as [y|]; cbn; try discriminate.
  unfold Qlt_bool. intros Hgt. exists x, y. repeat split.
  apply Qnot_le_lt. intros Hle. apply Qle_bool_iff in Hle.
  rewrite Hle in Hgt. discriminate Hgt.
Qed.

Lemma np_gt_false (x y : Q) :
  Bookkeeping.np_gt (Fin x) (Fin y) = false → (x <= y)%Q.
Proof.
  cbn. unfold Qlt_bool. intros Hgt. apply Qle_bool_iff.
  destruct (Qle_bool x y); [reflexivity | discriminate Hgt].
Qed.

Lemma bookkeeping_invariant (rs : list EpochResult) :
  checkpoint_invariant rs (Bookkeeping.bookkeeping rs).
Proof.
  unfold Bookkeeping.bookkeeping.
  induction rs as [|r rs IH] using rev_ind.
  - exists 0%Q. cbn. split; [reflexivity|]. split; [lra|].
    split; [|reflexivity].
    intros k r x Hk. destruct k; discriminate Hk.
  - rewrite record_epochs_snoc. cbn [Nat.add].
    destruct IH as (q & Hbest & Hq0 & Hmax & Hpth).
    set (b := Bookkeeping.record_epochs 0 rs Bookkeeping.init) in *.
    unfold Bookkeeping.record_epoch.
    destruct (Bookkeeping.np_gt (Bookkeeping.epoch_valid_acc r)
                                (Bookkeeping.best_valid_acc b)) eqn:Hgt.
    + apply np_gt_true in Hgt. destruct Hgt as (x & y & Hx & Hy & Hlt).
      rewrite Hbest in Hy. injection Hy as <-.
      exists x. cbn. split; [exact Hx|]. split; [lra|]. split.
      * intros k r' x' Hk Hacc.
        destruct (decide (k < length rs)) as [Hlt'|Hge].
        -- rewrite lookup_app_l in Hk by exact Hlt'.
           specialize (Hmax k r' x' Hk Hacc). lra.
        -- rewrite lookup_app_r in Hk by lia.
           destruct (k - length rs) as [|n] eqn:Hn; [|destruct n; discriminate Hk].
           injection Hk as <-. rewrite Hx in Hacc. injection Hacc as <-. lra.
      * split; [exact Hx|]. split; [lra|]. exists r.
        split; [rewrite lookup_app_r by lia; rewrite Nat.sub_diag; reflexivity|].
        split; [exact Hx|]. split; [reflexivity|].
        intros k r' x' Hk Hlk Hacc.
        rewrite lookup_app_l in Hlk by exact Hk.
        specialize (Hmax k r' x' Hlk Hacc). lra.
    + exists q. cbn. split; [exact Hbest|]. split; [exact Hq0|]. split.
      * intros k r' x' Hk Hacc.
        destruct (decide (k < length rs)) as [Hlt'|Hge].
        -- rewrite lookup_app_l in Hk by exact Hlt'. exact (Hmax k r' x' Hk Hacc).
        -- rewrite lookup_app_r in Hk by lia.
           destruct (k - length rs) as [|n] eqn:Hn; [|destruct n; discriminate Hk].
           injection Hk as <-. rewrite Hacc, Hbest in Hgt.
           apply np_gt_false, Hgt.
      * destruct (Bookkeeping.best_model_pth b) as [bd|]; [|exact Hpth].
        destruct Hpth as (Hbd & Hpos & r0 & Hr0 & Hacc0 & Hsd & Hfirst).
        pose proof (lookup_lt_Some _ _ _ Hr0) as Hlen.
        split; [exact Hbd|]. split; [exact Hpos|]. exists r0.
        split; [rewrite lookup_app_l by exact Hlen; exact Hr0|].
        split; [exact Hacc0|]. split; [exact Hsd|].
        intros k r' x' Hk Hlk Hacc.
        rewrite lookup_app_l in Hlk by lia.
        exact (Hfirst k r' x' Hk Hlk Hacc).
Qed.

(** After any number of epochs [best_valid_acc] is a number, never nan: the
    largest of 0 and the validation accuracies seen so far.
    [best_model.pth] does not exist when no epoch's accuracy exceeded 0
    (nan included); otherwise it holds the state of the first epoch that
    reached [best_valid_acc], with that epoch's number. *)
Theorem best_model_is_first_epoch_of_best_accuracy (rs : list EpochResult) :
  let b := Bookkeeping.bookkeeping rs in
  ∃ q, Bookkeeping.best_valid_acc b = Fin q ∧ (0 <= q)%Q ∧
       (∀ k r x, rs !! k = Some r → Bookkeeping.epoch_valid_acc r = Fin x → (x <= q)%Q) ∧
       match Bookkeeping.best_model_pth b with
       | None => q = 0%Q
       | Some bd =>
           Bookkeeping.bd_best_valid_acc bd = Fin q ∧ (0 < q)%Q ∧
           ∃ r, rs !! Bookkeeping.bd_epoch bd = Some r ∧
                Bookkeeping.epoch_valid_acc r = Fin q ∧
                Bookkeeping.bd_model bd = Bookkeeping.state_dict r ∧
                ∀ k r' x, k < Bookkeeping.bd_epoch bd → rs !! k = Some r' →
                          Bookkeeping.epoch_valid_acc r' = Fin x → (x < q)%Q
       end.
Proof. exact (bookkeeping_invariant rs). Qed.



End BookkeepingFacts.
